(** * Employee Management System GraphQL API: the resolvers of [server.js]

    A shallow embedding of the resolver layer of [src/server.js] (login,
    signup and the Employee operations) over an explicit model of the two
    Mongoose collections, with the properties of the specification stated
    and proved about it. *)

From Stdlib Require Import Floats ZArith.
From stdpp Require Import gmap strings list.

Open Scope string_scope.

(** ** JavaScript strings

    A JavaScript string is a sequence of UTF-16 code units; [length] is the
    number of code units, as [String.prototype.length] is. *)

Abbreviation jsstring := (list N).

(** An ASCII literal of the source as a JavaScript string. *)
Definition js (s : string) : jsstring :=
  Ascii.N_of_ascii <$> String.list_ascii_of_string s.

(** WhiteSpace and LineTerminator code units of ECMAScript: what
    [String.prototype.trim] strips and what [\s] matches. *)
Definition is_ws (c : N) : bool :=
  ((9 <=? c) && (c <=? 13) || (c =? 32) || (c =? 160) || (c =? 5760)
   || (8192 <=? c) && (c <=? 8202) || (c =? 8232) || (c =? 8233)
   || (c =? 8239) || (c =? 8287) || (c =? 12288) || (c =? 65279))%N.

Fixpoint trimStart (s : jsstring) : jsstring :=
  match s with
  | [] => []
  | c :: s' => if is_ws c then trimStart s' else s
  end.

Definition trimEnd (s : jsstring) : jsstring := rev (trimStart (rev s)).

(** [s.trim()] *)
Definition trim (s : jsstring) : jsstring := trimEnd (trimStart s).

(** [s.trim()] is the empty string. *)
Definition trim_is_empty (s : jsstring) : bool :=
  match trim s with [] => true | _ :: _ => false end.

(** [!x] for a string argument that may be missing: [undefined], [null] and
    the empty string are falsy. [None] stands for [undefined] and [null],
    which no resolver tells apart. *)
Definition js_not (x : option jsstring) : bool :=
  match x with
  | None => true
  | Some [] => true
  | Some (_ :: _) => false
  end.

(** ** Regular expressions

    Patterns without flags, anchored with [^] and [$] at both ends, matched
    by derivatives. [Class p] is a character class given by its predicate. *)

Inductive regex : Type :=
| Void : regex
| Eps : regex
| Class (p : N → bool) : regex
| Cat (r1 r2 : regex) : regex
| Alt (r1 r2 : regex) : regex
| Star (r : regex) : regex.

(** [r+] *)
Definition Plus (r : regex) : regex := Cat r (Star r).

Fixpoint nullable (r : regex) : bool :=
  match r with
  | Void => false
  | Eps => true
  | Class _ => false
  | Cat r1 r2 => nullable r1 && nullable r2
  | Alt r1 r2 => nullable r1 || nullable r2
  | Star _ => true
  end.

Fixpoint deriv (c : N) (r : regex) : regex :=
  match r with
  | Void => Void
  | Eps => Void
  | Class p => if p c then Eps else Void
  | Cat r1 r2 =>
      if nullable r1
      then Alt (Cat (deriv c r1) r2) (deriv c r2)
      else Cat (deriv c r1) r2
  | Alt r1 r2 => Alt (deriv c r1) (deriv c r2)
  | Star r1 => Cat (deriv c r1) (Star r1)
  end.

(** [/^r$/.test(s)] *)
Fixpoint regex_test (r : regex) (s : jsstring) : bool :=
  match s with
  | [] => nullable r
  | c :: s' => regex_test (deriv c r) s'
  end.

(** The words a pattern matches, as a relation. *)
Inductive matches : regex → jsstring → Prop :=
| m_eps : matches Eps []
| m_class p c : p c = true → matches (Class p) [c]
| m_cat r1 r2 s1 s2 : matches r1 s1 → matches r2 s2 → matches (Cat r1 r2) (s1 ++ s2)
| m_alt_l r1 r2 s : matches r1 s → matches (Alt r1 r2) s
| m_alt_r r1 r2 s : matches r2 s → matches (Alt r1 r2) s
| m_star_nil r : matches (Star r) []
| m_star_cons r s1 s2 : matches r s1 → matches (Star r) s2 → matches (Star r) (s1 ++ s2).

(** [[^\s@]] *)
Definition not_ws_at (c : N) : bool := negb (is_ws c) && negb (c =? 64)%N.

(** [/^[^\s@]+@[^\s@]+\.[^\s@]+$/] *)
Definition emailRegex : regex :=
  Cat (Plus (Class not_ws_at))
    (Cat (Class (N.eqb 64))
       (Cat (Plus (Class not_ws_at))
          (Cat (Class (N.eqb 46))
             (Plus (Class not_ws_at))))).

(** [x] as a string, for an argument a guard has already rejected when it
    holds none. *)
Definition string_of (x : option jsstring) : jsstring := default [] x.

(** [!x], or [x.trim()] is the empty string: the test of a required
    string. *)
Definition blank (x : option jsstring) : bool :=
  js_not x || trim_is_empty (string_of x).

(** JavaScript numbers are IEEE 754 binary64 values. *)
Abbreviation jsnumber := float.

(** ** Errors and results *)

(** [new UserInputError(message, { invalidArgs })]; [invalidArgs] is [None]
    when the error is built from the message alone. Every error the
    resolvers build is of this one class; the kinds the specification
    speaks of are told apart by the message: "User not found" and "Employee
    not found" (not found), "User already exists" (already exists),
    "Invalid credentials" (invalid credential), and the messages of the
    argument checks, which come with the names of the arguments at fault
    (invalid argument). *)
Record UserInputError : Type := mkUserInputError {
  message : string;
  invalidArgs : option (list string)
}.

(** What a call can throw: an error a resolver has built, or the
    [CastError] with which Mongoose turns down, at the path [_id], a value
    that it cannot cast to an [ObjectId]. *)
Inductive exn : Type :=
| UserInput (e : UserInputError)
| CastError (value : jsstring).

Coercion UserInput : UserInputError >-> exn.

Inductive result (A : Type) : Type :=
| Return (a : A)
| Throw (e : exn).
Arguments Return {A} a.
Arguments Throw {A} e.

(** ** Documents *)

(** [UserSchema] of [models/User.js]. *)
Module UserSchema.
Record doc : Type := mk {
  username : jsstring;
  email : jsstring;
  password : jsstring;
  created_at : N;
  updated_at : N
}.
End UserSchema.

(** Modelled from the spec: the Employee schema ([models/Employee.js]),
    with the fields of the GraphQL type [Employee] of [typeDefs]. A field
    that is [null] or not set is [None]. *)
Module EmployeeSchema.
Record doc : Type := mk {
  _id : jsstring;
  first_name : option jsstring;
  last_name : option jsstring;
  email : option jsstring;
  gender : option jsstring;
  designation : option jsstring;
  salary : option jsnumber;
  date_of_joining : option jsstring;
  department : option jsstring;
  employee_photo : option jsstring;
  created_at : N;
  updated_at : N
}.
End EmployeeSchema.

(** The argument bag of [addNewEmployee]. *)
Module Args.
Record t : Type := mk {
  first_name : option jsstring;
  last_name : option jsstring;
  email : option jsstring;
  gender : option jsstring;
  designation : option jsstring;
  salary : option jsnumber;
  date_of_joining : option jsstring;
  department : option jsstring;
  employee_photo : option jsstring
}.
End Args.

(** [updateFields], the rest of the argument bag of [updateEmployeeByEid]
    once [eid] is taken out. For each field, [None] is a field the bag does
    not have, [Some None] a field supplied as [null] and [Some (Some v)] a
    field supplied with the value [v]. *)
Module UpdateFields.
Record t : Type := mk {
  first_name : option (option jsstring);
  last_name : option (option jsstring);
  email : option (option jsstring);
  gender : option (option jsstring);
  designation : option (option jsstring);
  salary : option (option jsnumber);
  date_of_joining : option (option jsstring);
  department : option (option jsstring);
  employee_photo : option (option jsstring)
}.
End UpdateFields.

(** ** The database and the calls made to the outside *)

Inductive Call : Type :=
| User_findOne_call
| User_save_call
| Employee_find_call
| Employee_findById_call
| Employee_save_call
| Employee_findByIdAndUpdate_call
| Employee_findByIdAndDelete_call
| bcrypt_hash_call
| bcrypt_compare_call.

(** The two collections, and the trace of the calls a resolver has made to
    Mongoose and bcryptjs, latest first. Users are kept in insertion order;
    employees are keyed by [_id]. *)
Record Db : Type := mkDb {
  users : list UserSchema.doc;
  employees : gmap jsstring EmployeeSchema.doc;
  calls : list Call
}.

(** ** Resolvers as state-and-exception computations *)

Definition M (A : Type) : Type := Db → result A * Db.

#[global] Instance M_ret : MRet M := λ A a db, (Return a, db).

#[global] Instance M_bind : MBind M := λ A B f m db,
  match m db with
  | (Return a, db') => f a db'
  | (Throw e, db') => (Throw e, db')
  end.

Definition throw {A : Type} (e : exn) : M A := λ db, (Throw e, db).

Definition record_call (c : Call) : M () := λ db,
  (Return (), mkDb (users db) (employees db) (c :: calls db)).

(** What bcryptjs, the clock and Mongoose's identifiers give.
    [is_ObjectId] tells the strings Mongoose casts to an [ObjectId], the
    type of [_id]; the empty string is not one. A new identifier is one of
    them, and one no stored employee has. *)
Class Externals : Type := {
  bcrypt_hash_fn : jsstring → N → jsstring;
  bcrypt_compare_fn : jsstring → jsstring → bool;
  Date_now : N;
  is_ObjectId : jsstring → bool;
  is_ObjectId_empty : is_ObjectId [] = false;
  ObjectId : gmap jsstring EmployeeSchema.doc → jsstring;
  ObjectId_fresh : ∀ m, m !! ObjectId m = None;
  ObjectId_is_ObjectId : ∀ m, is_ObjectId (ObjectId m) = true
}.

Definition get_db : M Db := λ db, (Return db, db).

Definition put_users (us : list UserSchema.doc) : M () := λ db,
  (Return (), mkDb us (employees db) (calls db)).

Definition put_employees (es : gmap jsstring EmployeeSchema.doc) : M () := λ db,
  (Return (), mkDb (users db) es (calls db)).

(** [bcryptjs] *)
Module bcrypt.
Definition hash `{Externals} (s : jsstring) (rounds : N) : M jsstring :=
  _ ← record_call bcrypt_hash_call;
  mret (bcrypt_hash_fn s rounds).

Definition compare `{Externals} (s hash : jsstring) : M bool :=
  _ ← record_call bcrypt_compare_call;
  mret (bcrypt_compare_fn s hash).
End bcrypt.

(** The model [User] of Mongoose. *)
Module User.
(** One clause [{ field }] of a filter, against the stored value of the
    field: an argument that is missing equals no stored string. *)
Definition clause (arg : option jsstring) (v : jsstring) : bool :=
  match arg with
  | Some a => bool_decide (a = v)
  | None => false
  end.

(** [{ $or: [{ username }, { email }] }] *)
Definition filter_or (username email : option jsstring) (u : UserSchema.doc) : bool :=
  clause username (UserSchema.username u) || clause email (UserSchema.email u).

Definition findOne (username email : option jsstring) : M (option UserSchema.doc) :=
  _ ← record_call User_findOne_call;
  db ← get_db;
  mret (find (filter_or username email) (users db)).

(** [new User({ username, email, password })], the timestamps defaulting
    to [Date.now]. *)
Definition new `{Externals} (username email password : jsstring) : UserSchema.doc :=
  UserSchema.mk username email password Date_now Date_now.

Definition save (u : UserSchema.doc) : M UserSchema.doc :=
  _ ← record_call User_save_call;
  db ← get_db;
  _ ← put_users (users db ++ [u]);
  mret u.
End User.

(** Modelled from the spec: the model [Employee] of Mongoose, whose schema
    file is not part of the sources; its operations are those of the
    persistence boundary ([find], [findById], [insert], [updateById],
    [deleteById]). The operations by identifier first cast the string they
    are given to the [ObjectId] of [_id], and throw [CastError] when it is
    not one. *)
Module Employee.
Inductive clause : Type :=
| by_designation (v : jsstring)
| by_department (v : jsstring).

Definition holds (d : EmployeeSchema.doc) (c : clause) : bool :=
  match c with
  | by_designation v => bool_decide (EmployeeSchema.designation d = Some v)
  | by_department v => bool_decide (EmployeeSchema.department d = Some v)
  end.

(** [Employee.find()] *)
Definition find_all : M (list EmployeeSchema.doc) :=
  _ ← record_call Employee_find_call;
  db ← get_db;
  mret ((map_to_list (employees db)).*2).

(** [Employee.find({ $or: query })] *)
Definition find (query : list clause) : M (list EmployeeSchema.doc) :=
  _ ← record_call Employee_find_call;
  db ← get_db;
  mret (filter (λ d, existsb (holds d) query = true) ((map_to_list (employees db)).*2)).

(** The cast of the identifier of a query to an [ObjectId]. *)
Definition cast_id `{Externals} (id : jsstring) : M jsstring :=
  if is_ObjectId id then mret id else throw (CastError id).

Definition findById `{Externals} (id : jsstring) : M (option EmployeeSchema.doc) :=
  _ ← record_call Employee_findById_call;
  id ← cast_id id;
  db ← get_db;
  mret (employees db !! id).

(** [new Employee(args)]: the fields of the argument bag, a new
    identifier and the timestamps. *)
Definition new `{Externals} (args : Args.t) : M EmployeeSchema.doc :=
  db ← get_db;
  mret {| EmployeeSchema._id := ObjectId (employees db);
          EmployeeSchema.first_name := Args.first_name args;
          EmployeeSchema.last_name := Args.last_name args;
          EmployeeSchema.email := Args.email args;
          EmployeeSchema.gender := Args.gender args;
          EmployeeSchema.designation := Args.designation args;
          EmployeeSchema.salary := Args.salary args;
          EmployeeSchema.date_of_joining := Args.date_of_joining args;
          EmployeeSchema.department := Args.department args;
          EmployeeSchema.employee_photo := Args.employee_photo args;
          EmployeeSchema.created_at := Date_now;
          EmployeeSchema.updated_at := Date_now |}.

Definition save (d : EmployeeSchema.doc) : M EmployeeSchema.doc :=
  _ ← record_call Employee_save_call;
  db ← get_db;
  _ ← put_employees (<[EmployeeSchema._id d := d]> (employees db));
  mret d.

(** [$set] of the fields an update has, on a stored document. *)
Definition set (u : UpdateFields.t) (d : EmployeeSchema.doc) : EmployeeSchema.doc :=
  {| EmployeeSchema._id := EmployeeSchema._id d;
     EmployeeSchema.first_name := default (EmployeeSchema.first_name d) (UpdateFields.first_name u);
     EmployeeSchema.last_name := default (EmployeeSchema.last_name d) (UpdateFields.last_name u);
     EmployeeSchema.email := default (EmployeeSchema.email d) (UpdateFields.email u);
     EmployeeSchema.gender := default (EmployeeSchema.gender d) (UpdateFields.gender u);
     EmployeeSchema.designation := default (EmployeeSchema.designation d) (UpdateFields.designation u);
     EmployeeSchema.salary := default (EmployeeSchema.salary d) (UpdateFields.salary u);
     EmployeeSchema.date_of_joining :=
       default (EmployeeSchema.date_of_joining d) (UpdateFields.date_of_joining u);
     EmployeeSchema.department := default (EmployeeSchema.department d) (UpdateFields.department u);
     EmployeeSchema.employee_photo :=
       default (EmployeeSchema.employee_photo d) (UpdateFields.employee_photo u);
     EmployeeSchema.created_at := EmployeeSchema.created_at d;
     EmployeeSchema.updated_at := EmployeeSchema.updated_at d |}.

(** [Employee.findByIdAndUpdate(id, updateFields, { new: true })]: no
    validator runs on an update. *)
Definition findByIdAndUpdate `{Externals} (id : jsstring) (u : UpdateFields.t)
  : M (option EmployeeSchema.doc) :=
  _ ← record_call Employee_findByIdAndUpdate_call;
  id ← cast_id id;
  db ← get_db;
  match employees db !! id with
  | None => mret None
  | Some d =>
      _ ← put_employees (<[id := set u d]> (employees db));
      mret (Some (set u d))
  end.

Definition findByIdAndDelete `{Externals} (id : jsstring) : M (option EmployeeSchema.doc) :=
  _ ← record_call Employee_findByIdAndDelete_call;
  id ← cast_id id;
  db ← get_db;
  _ ← put_employees (delete id (employees db));
  mret (employees db !! id).
End Employee.

(** ** The resolvers *)

Section resolvers.
Context `{Externals}.

Definition login (username email password : option jsstring) : M UserSchema.doc :=
  if js_not username && js_not email || js_not password then
    throw (mkUserInputError "Username or email and password are required"
             (Some ["username/email"; "password"]))
  else
    user ← User.findOne username email;
    match user with
    | None => throw (mkUserInputError "User not found" None)
    | Some user =>
        isValid ← bcrypt.compare (string_of password) (UserSchema.password user);
        if negb isValid then throw (mkUserInputError "Invalid credentials" None)
        else mret user
    end.

Definition getAllEmployees : M (list EmployeeSchema.doc) :=
  Employee.find_all.

Definition searchEmployeeByEid (eid : option jsstring) : M (option EmployeeSchema.doc) :=
  if js_not eid then
    throw (mkUserInputError "Employee ID is required" (Some ["eid"]))
  else
    Employee.findById (string_of eid).

Definition searchEmployeeByDesignationOrDepartment (designation department : option jsstring)
  : M (list EmployeeSchema.doc) :=
  if js_not designation && js_not department then
    throw (mkUserInputError "At least one of designation or department is required"
             (Some ["designation"; "department"]))
  else
    let query :=
      ((if js_not designation then [] else [Employee.by_designation (string_of designation)])
       ++ (if js_not department then [] else [Employee.by_department (string_of department)]))%list in
    Employee.find query.

Definition signup (username email password : option jsstring) : M UserSchema.doc :=
  if blank username then
    throw (mkUserInputError "Username is required" (Some ["username"]))
  else if blank email then
    throw (mkUserInputError "Email is required" (Some ["email"]))
  else if negb (regex_test emailRegex (string_of email)) then
    throw (mkUserInputError "Invalid email format" (Some ["email"]))
  else if js_not password || (length (string_of password) <? 6)%nat then
    throw (mkUserInputError "Password must be at least 6 characters long" (Some ["password"]))
  else
    existingUser ← User.findOne username email;
    match existingUser with
    | Some _ =>
        throw (mkUserInputError "User already exists" (Some ["username"; "email"]))
    | None =>
        hashedPassword ← bcrypt.hash (string_of password) 12;
        User.save (User.new (string_of username) (string_of email) hashedPassword)
    end.

(** [salary === undefined || salary < 1000] *)
Definition salary_too_low (salary : option jsnumber) : bool :=
  match salary with
  | None => true
  | Some x => PrimFloat.ltb x 1000%float
  end.

Definition addNewEmployee (args : Args.t) : M EmployeeSchema.doc :=
  if blank (Args.first_name args) then
    throw (mkUserInputError "First name is required" (Some ["first_name"]))
  else if blank (Args.last_name args) then
    throw (mkUserInputError "Last name is required" (Some ["last_name"]))
  else if blank (Args.designation args) then
    throw (mkUserInputError "Designation is required" (Some ["designation"]))
  else if salary_too_low (Args.salary args) then
    throw (mkUserInputError "Salary must be at least 1000" (Some ["salary"]))
  else if js_not (Args.date_of_joining args) then
    throw (mkUserInputError "Date of joining is required" (Some ["date_of_joining"]))
  else if blank (Args.department args) then
    throw (mkUserInputError "Department is required" (Some ["department"]))
  else
    newEmployee ← Employee.new args;
    Employee.save newEmployee.

Definition updateEmployeeByEid (eid : option jsstring) (updateFields : UpdateFields.t)
  : M EmployeeSchema.doc :=
  if js_not eid then
    throw (mkUserInputError "Employee ID is required" (Some ["eid"]))
  else
    updatedEmployee ← Employee.findByIdAndUpdate (string_of eid) updateFields;
    match updatedEmployee with
    | None => throw (mkUserInputError "Employee not found" (Some ["eid"]))
    | Some updatedEmployee => mret updatedEmployee
    end.

Definition deleteEmployeeByEid (eid : option jsstring) : M string :=
  if js_not eid then
    throw (mkUserInputError "Employee ID is required" (Some ["eid"]))
  else
    _ ← Employee.findByIdAndDelete (string_of eid);
    mret "Employee deleted successfully".
End resolvers.

(** The errors [addNewEmployee] throws at its checks. *)
Definition first_name_required : UserInputError :=
  mkUserInputError "First name is required" (Some ["first_name"]).
Definition last_name_required : UserInputError :=
  mkUserInputError "Last name is required" (Some ["last_name"]).
Definition designation_required : UserInputError :=
  mkUserInputError "Designation is required" (Some ["designation"]).
Definition salary_at_least_1000 : UserInputError :=
  mkUserInputError "Salary must be at least 1000" (Some ["salary"]).
Definition date_of_joining_required : UserInputError :=
  mkUserInputError "Date of joining is required" (Some ["date_of_joining"]).
Definition department_required : UserInputError :=
  mkUserInputError "Department is required" (Some ["department"]).


(** ** Requests and the stores they lead to *)

Inductive request : Type :=
| login_request (username email password : option jsstring)
| getAllEmployees_request
| searchEmployeeByEid_request (eid : option jsstring)
| searchEmployeeByDesignationOrDepartment_request (designation department : option jsstring)
| signup_request (username email password : option jsstring)
| addNewEmployee_request (args : Args.t)
| updateEmployeeByEid_request (eid : option jsstring) (updateFields : UpdateFields.t)
| deleteEmployeeByEid_request (eid : option jsstring).

(** The database a request leaves behind. *)
Definition serve `{Externals} (r : request) (db : Db) : Db :=
  match r with
  | login_request u e p => (login u e p db).2
  | getAllEmployees_request => (getAllEmployees db).2
  | searchEmployeeByEid_request eid => (searchEmployeeByEid eid db).2
  | searchEmployeeByDesignationOrDepartment_request d p =>
      (searchEmployeeByDesignationOrDepartment d p db).2
  | signup_request u e p => (signup u e p db).2
  | addNewEmployee_request args => (addNewEmployee args db).2
  | updateEmployeeByEid_request eid u => (updateEmployeeByEid eid u db).2
  | deleteEmployeeByEid_request eid => (deleteEmployeeByEid eid db).2
  end.

Definition empty_db : Db := mkDb [] ∅ [].

(** The databases the server can be in: the empty one, and the one any
    request leaves from one of them. *)
Inductive reachable `{Externals} : Db → Prop :=
| reachable_empty : reachable empty_db
| reachable_serve db r : reachable db → reachable (serve r db).

(** Every stored employee is filed under its own, non-empty identifier. *)
Definition well_keyed (db : Db) : Prop :=
  ∀ id d, employees db !! id = Some d → EmployeeSchema._id d = id ∧ id ≠ [].

(** An employee the database holds. *)
Definition stored (db : Db) (d : EmployeeSchema.doc) : Prop :=
  ∃ k, employees db !! k = Some d.

(** ** Vocabulary of the specification *)

(** A string that consists only of whitespace (the empty string too). *)
Definition whitespace_only (s : jsstring) : Prop := Forall (λ c, is_ws c = true) s.

(** An argument that is there and has a character that is not whitespace:
    what the resolvers take as a non-empty required string. *)
Definition non_empty (x : option jsstring) : Prop :=
  ∃ s, x = Some s ∧ ¬ whitespace_only s.

(** An argument that is there and is not the empty string. *)
Definition present (x : option jsstring) : Prop :=
  ∃ s, x = Some s ∧ s ≠ [].

(** The shape [local@domain.tld]: three non-empty parts without whitespace
    or [@], around one [@] and one [.]. *)
Definition email_shape (s : jsstring) : Prop :=
  ∃ loc dom tld,
    s = (loc ++ 64%N :: dom ++ 46%N :: tld)%list
    ∧ loc ≠ [] ∧ dom ≠ [] ∧ tld ≠ []
    ∧ Forall (λ c, not_ws_at c = true) loc
    ∧ Forall (λ c, not_ws_at c = true) dom
    ∧ Forall (λ c, not_ws_at c = true) tld.

(** The checks of [signup] in the order the specification gives them. *)
Inductive signup_check : Type :=
| username_non_empty
| email_non_empty
| email_matches
| password_length.

Definition spec_signup_checks : list signup_check :=
  [username_non_empty; email_non_empty; email_matches; password_length].

Definition passes (username email password : option jsstring) (c : signup_check) : Prop :=
  match c with
  | username_non_empty => non_empty username
  | email_non_empty => non_empty email
  | email_matches => ∃ s, email = Some s ∧ email_shape s
  | password_length => ∃ s, password = Some s ∧ (6 ≤ length s)%nat
  end.

(** The error [signup] throws at each of its checks. *)
Definition signup_error (c : signup_check) : UserInputError :=
  match c with
  | username_non_empty => mkUserInputError "Username is required" (Some ["username"])
  | email_non_empty => mkUserInputError "Email is required" (Some ["email"])
  | email_matches => mkUserInputError "Invalid email format" (Some ["email"])
  | password_length =>
      mkUserInputError "Password must be at least 6 characters long" (Some ["password"])
  end.

Definition signup_field (c : signup_check) : string :=
  match c with
  | username_non_empty => "username"
  | email_non_empty | email_matches => "email"
  | password_length => "password"
  end.

(** The fields of a stored employee, and their values. *)
Inductive field : Type :=
| f__id | f_first_name | f_last_name | f_email | f_gender | f_designation
| f_salary | f_date_of_joining | f_department | f_employee_photo
| f_created_at | f_updated_at.

Inductive jsvalue : Type :=
| JString (s : option jsstring)
| JNumber (x : option jsnumber)
| JDate (t : N).

Definition field_value (f : field) (d : EmployeeSchema.doc) : jsvalue :=
  match f with
  | f__id => JString (Some (EmployeeSchema._id d))
  | f_first_name => JString (EmployeeSchema.first_name d)
  | f_last_name => JString (EmployeeSchema.last_name d)
  | f_email => JString (EmployeeSchema.email d)
  | f_gender => JString (EmployeeSchema.gender d)
  | f_designation => JString (EmployeeSchema.designation d)
  | f_salary => JNumber (EmployeeSchema.salary d)
  | f_date_of_joining => JString (EmployeeSchema.date_of_joining d)
  | f_department => JString (EmployeeSchema.department d)
  | f_employee_photo => JString (EmployeeSchema.employee_photo d)
  | f_created_at => JDate (EmployeeSchema.created_at d)
  | f_updated_at => JDate (EmployeeSchema.updated_at d)
  end.

(** What an update supplies for a field, if it has the field at all. *)
Definition supplied (f : field) (u : UpdateFields.t) : option jsvalue :=
  match f with
  | f_first_name => JString <$> UpdateFields.first_name u
  | f_last_name => JString <$> UpdateFields.last_name u
  | f_email => JString <$> UpdateFields.email u
  | f_gender => JString <$> UpdateFields.gender u
  | f_designation => JString <$> UpdateFields.designation u
  | f_salary => JNumber <$> UpdateFields.salary u
  | f_date_of_joining => JString <$> UpdateFields.date_of_joining u
  | f_department => JString <$> UpdateFields.department u
  | f_employee_photo => JString <$> UpdateFields.employee_photo u
  | f__id | f_created_at | f_updated_at => None
  end.

(** The fields of a stored employee that an argument bag can supply. *)
Definition fields_of (d : EmployeeSchema.doc) : Args.t :=
  {| Args.first_name := EmployeeSchema.first_name d;
     Args.last_name := EmployeeSchema.last_name d;
     Args.email := EmployeeSchema.email d;
     Args.gender := EmployeeSchema.gender d;
     Args.designation := EmployeeSchema.designation d;
     Args.salary := EmployeeSchema.salary d;
     Args.date_of_joining := EmployeeSchema.date_of_joining d;
     Args.department := EmployeeSchema.department d;
     Args.employee_photo := EmployeeSchema.employee_photo d |}.


(** ** A concrete outside world, to run the resolvers on examples *)

(** A stand-in for bcryptjs: the hash of a string is the string reversed
    behind a fixed prefix. *)
Definition example_hash (s : jsstring) (rounds : N) : jsstring :=
  (js "$2a$" ++ rev s)%list.

(** A stand-in for the identifiers of Mongoose: a string of 24 or more
    hexadecimal digits (the digits beyond 24 are there so that a new
    identifier can always be found). *)
Definition is_hex (c : N) : bool :=
  ((48 <=? c) && (c <=? 57) || (65 <=? c) && (c <=? 70) || (97 <=? c) && (c <=? 102))%N.

Definition example_is_ObjectId (s : jsstring) : bool :=
  (24 <=? length s)%nat && forallb is_hex s.

(** The identifier made of [24 + n] zeros. *)
Definition zeros (n : nat) : jsstring := replicate (24 + n) 48%N.

(** The first of these identifiers that is longer than need be for none of
    the stored ones to have its length. *)
Definition example_ObjectId (m : gmap jsstring EmployeeSchema.doc) : jsstring :=
  zeros (fresh (list_to_set ((λ k, length k - 24)%nat <$> elements (dom m)) : gset nat)).

#[global] Instance example_externals : Externals.
Proof.
  refine {| bcrypt_hash_fn := example_hash;
            bcrypt_compare_fn := λ s h, bool_decide (h = example_hash s 12);
            Date_now := 1700000000000%N;
            is_ObjectId := example_is_ObjectId;
            ObjectId := example_ObjectId |}.
  - reflexivity.
  - intros m. apply not_elem_of_dom. intros Hin.
    apply (is_fresh (list_to_set ((λ k, length k - 24)%nat <$> elements (dom m)) : gset nat)).
    apply elem_of_list_to_set, list_elem_of_fmap.
    exists (example_ObjectId m). split; [| by apply elem_of_elements].
    unfold example_ObjectId, zeros. rewrite length_replicate. lia.
  - intros m. unfold example_is_ObjectId, example_ObjectId, zeros.
    rewrite length_replicate. apply andb_true_intro. split.
    + apply Nat.leb_le. lia.
    + apply forallb_forall. intros c Hc.
      apply list_elem_of_In, elem_of_replicate in Hc as [-> _]. reflexivity.
Defined.

Definition alice : UserSchema.doc :=
  UserSchema.mk (js "alice") (js "alice@example.com") (example_hash (js "secret1") 12)
    1700000000000 1700000000000.

Definition db_alice : Db := mkDb [alice] ∅ [].

(** The arguments of the scenario of the specification, with a salary that
    passes. *)
Definition args_AB : Args.t :=
  Args.mk (Some (js "A")) (Some (js "B")) None None (Some (js "Eng"))
    (Some 1500%float) (Some (js "2024-01-01")) (Some (js "R&D")) None.

(** The database after [addNewEmployee(args_AB)] on the empty one, and the
    identifier the new employee got. *)
Definition db_AB : Db := serve (addNewEmployee_request args_AB) empty_db.

Definition id_AB : jsstring := ObjectId (employees empty_db).

Definition employee_AB : EmployeeSchema.doc :=
  {| EmployeeSchema._id := id_AB;
     EmployeeSchema.first_name := Some (js "A");
     EmployeeSchema.last_name := Some (js "B");
     EmployeeSchema.email := None;
     EmployeeSchema.gender := None;
     EmployeeSchema.designation := Some (js "Eng");
     EmployeeSchema.salary := Some 1500%float;
     EmployeeSchema.date_of_joining := Some (js "2024-01-01");
     EmployeeSchema.department := Some (js "R&D");
     EmployeeSchema.employee_photo := None;
     EmployeeSchema.created_at := 1700000000000;
     EmployeeSchema.updated_at := 1700000000000 |}.

(** The scenario of the specification: a salary of 500. *)
Definition args_salary_500 : Args.t :=
  Args.mk (Some (js "A")) (Some (js "B")) None None (Some (js "Eng"))
    (Some 500%float) (Some (js "2024-01-01")) (Some (js "R&D")) None.

(** The same, with a department made of three spaces. *)
Definition args_salary_500_blank_department : Args.t :=
  Args.mk (Some (js "A")) (Some (js "B")) None None (Some (js "Eng"))
    (Some 500%float) (Some (js "2024-01-01")) (Some (js "   ")) None.

(** Valid arguments but for a department made of three spaces. *)
Definition args_blank_department : Args.t :=
  Args.mk (Some (js "A")) (Some (js "B")) None None (Some (js "Eng"))
    (Some 1500%float) (Some (js "2024-01-01")) (Some (js "   ")) None.

(** [{ first_name: "Ann" }] *)
Definition update_first_name : UpdateFields.t :=
  UpdateFields.mk (Some (Some (js "Ann"))) None None None None None None None None.

(** An update to the empty first name and to a salary of 5. *)
Definition update_empty_first_name : UpdateFields.t :=
  UpdateFields.mk (Some (Some [])) None None None None (Some (Some 5%float)) None None None.

Definition other_id : jsstring := js "0123456789abcdef01234567".

(** ** Outcomes, queries and sequences of requests *)

(** The error a call has thrown, if it has thrown one. *)
Definition thrown {A : Type} (x : result A * Db) : option exn :=
  match x.1 with
  | Throw e => Some e
  | Return _ => None
  end.

(** The error with which a request fails on a database, if it fails. *)
Definition error_of `{Externals} (r : request) (db : Db) : option exn :=
  match r with
  | login_request u e p => thrown (login u e p db)
  | getAllEmployees_request => thrown (getAllEmployees db)
  | searchEmployeeByEid_request eid => thrown (searchEmployeeByEid eid db)
  | searchEmployeeByDesignationOrDepartment_request d p =>
      thrown (searchEmployeeByDesignationOrDepartment d p db)
  | signup_request u e p => thrown (signup u e p db)
  | addNewEmployee_request args => thrown (addNewEmployee args db)
  | updateEmployeeByEid_request eid u => thrown (updateEmployeeByEid eid u db)
  | deleteEmployeeByEid_request eid => thrown (deleteEmployeeByEid eid db)
  end.

(** The resolvers under [Query] of [resolvers] (and of [typeDefs]); the
    others are under [Mutation]. *)
Definition is_query (r : request) : bool :=
  match r with
  | login_request _ _ _ | getAllEmployees_request | searchEmployeeByEid_request _
  | searchEmployeeByDesignationOrDepartment_request _ _ => true
  | signup_request _ _ _ | addNewEmployee_request _ | updateEmployeeByEid_request _ _
  | deleteEmployeeByEid_request _ => false
  end.

(** The database after a sequence of requests, served one after the
    other. *)
Fixpoint serve_all `{Externals} (rs : list request) (db : Db) : Db :=
  match rs with
  | [] => db
  | r :: rs' => serve_all rs' (serve r db)
  end.

(** The error of [login] for missing arguments. *)
Definition login_arguments_required : UserInputError :=
  mkUserInputError "Username or email and password are required"
    (Some ["username/email"; "password"]).

(** The error of [searchEmployeeByDesignationOrDepartment] for missing
    arguments. *)
Definition designation_or_department_required : UserInputError :=
  mkUserInputError "At least one of designation or department is required"
    (Some ["designation"; "department"]).

(** The checks of [addNewEmployee], in the order of the source. *)
Inductive employee_check : Type :=
| first_name_given
| last_name_given
| designation_given
| salary_given
| date_of_joining_given
| department_given.

Definition addNewEmployee_checks : list employee_check :=
  [first_name_given; last_name_given; designation_given; salary_given;
   date_of_joining_given; department_given].

Definition employee_passes (args : Args.t) (c : employee_check) : Prop :=
  match c with
  | first_name_given => non_empty (Args.first_name args)
  | last_name_given => non_empty (Args.last_name args)
  | designation_given => non_empty (Args.designation args)
  | salary_given => ∃ x, Args.salary args = Some x ∧ PrimFloat.ltb x 1000 = false
  | date_of_joining_given => present (Args.date_of_joining args)
  | department_given => non_empty (Args.department args)
  end.

(** The test the source makes for each check; [true] is a failure. *)
Definition employee_test (args : Args.t) (c : employee_check) : bool :=
  match c with
  | first_name_given => blank (Args.first_name args)
  | last_name_given => blank (Args.last_name args)
  | designation_given => blank (Args.designation args)
  | salary_given => salary_too_low (Args.salary args)
  | date_of_joining_given => js_not (Args.date_of_joining args)
  | department_given => blank (Args.department args)
  end.

Definition addNewEmployee_error (c : employee_check) : UserInputError :=
  match c with
  | first_name_given => first_name_required
  | last_name_given => last_name_required
  | designation_given => designation_required
  | salary_given => salary_at_least_1000
  | date_of_joining_given => date_of_joining_required
  | department_given => department_required
  end.

(** What [signup] has made sure of for a user it has stored: a username
    that is not blank, an email of the shape the pattern accepts, and as
    password the bcrypt hash, at cost 12, of a string of 6 code units or
    more. *)
Definition signed_up `{Externals} (u : UserSchema.doc) : Prop :=
  ¬ whitespace_only (UserSchema.username u)
  ∧ email_shape (UserSchema.email u)
  ∧ ∃ p, (6 ≤ length p)%nat ∧ UserSchema.password u = bcrypt_hash_fn p 12.

Definition bob : UserSchema.doc :=
  UserSchema.mk (js "bob") (js "bob@example.com") (example_hash (js "hunter22") 12)
    1700000000000 1700000000000.

(** A second employee, of the department of the first and of another
    designation. *)
Definition args_CD : Args.t :=
  Args.mk (Some (js "C")) (Some (js "D")) None None (Some (js "Ops"))
    (Some 2000%float) (Some (js "2024-02-01")) (Some (js "R&D")) None.

(** The database after [addNewEmployee(args_CD)] on [db_AB]. *)
Definition db_AB_CD : Db := serve (addNewEmployee_request args_CD) db_AB.

(** * Properties *)

(** ** Strings *)

Example is_ws_examples :
  map is_ws [9; 10; 13; 32; 160; 8200; 8232; 65279; 14; 64; 97; 8203]%N
  = [true; true; true; true; true; true; true; true; false; false; false; false].
Proof. reflexivity. Qed.

Example trim_example : trim (js "  ab c ") = js "ab c".
Proof. reflexivity. Qed.

Example emailRegex_examples :
  map (λ s, regex_test emailRegex (js s))
    ["alice@example.com"; "a@b.c.d"; "alice@example"; "a b@example.com";
     "a@b@example.com"; "@example.com"; "alice@.com"; "alice@example."]
  = [true; true; false; false; false; false; false; false].
Proof. vm_compute. reflexivity. Qed.

Lemma trimStart_nil (s : jsstring) : trimStart s = [] ↔ whitespace_only s.
Proof.
  unfold whitespace_only. induction s as [|c s IH]; simpl.
  - split; [constructor | reflexivity].
  - destruct (is_ws c) eqn:Hc.
    + rewrite IH. split; [by constructor | by inversion 1].
    + split; [discriminate | inversion 1; congruence].
Qed.

Lemma trimStart_not_ws (s : jsstring) c s' : trimStart s = c :: s' → is_ws c = false.
Proof.
  induction s as [|a s IH]; simpl; [discriminate |].
  destruct (is_ws a) eqn:Ha; [exact IH | congruence].
Qed.

Lemma trim_nil (s : jsstring) : trim s = [] ↔ whitespace_only s.
Proof.
  unfold trim, trimEnd. split.
  - intros Hnil. apply trimStart_nil.
    destruct (trimStart s) as [|c s'] eqn:E; [reflexivity | exfalso].
    apply (f_equal (@rev N)) in Hnil. rewrite rev_involutive in Hnil. simpl rev at 2 in Hnil.
    apply trimStart_nil in Hnil. unfold whitespace_only in Hnil.
    rewrite Forall_forall in Hnil.
    assert (Hc : is_ws c = true).
    { apply Hnil. rewrite list_elem_of_In. apply in_or_app. right. by left. }
    rewrite (trimStart_not_ws _ _ _ E) in Hc. discriminate.
  - intros Hws. apply trimStart_nil in Hws. by rewrite Hws.
Qed.

Lemma trim_is_empty_true (s : jsstring) : trim_is_empty s = true ↔ whitespace_only s.
Proof.
  rewrite <- trim_nil. unfold trim_is_empty.
  destruct (trim s); split; congruence.
Qed.

Lemma blank_Some (s : jsstring) : blank (Some s) = true ↔ whitespace_only s.
Proof.
  unfold blank. simpl. rewrite <- trim_is_empty_true.
  destruct s; simpl; [| reflexivity].
  split; [reflexivity | done].
Qed.

Lemma blank_false (x : option jsstring) : blank x = false ↔ non_empty x.
Proof.
  unfold non_empty. destruct x as [s|].
  - rewrite <- not_true_iff_false, blank_Some. split.
    + intros Hs. by exists s.
    + intros (s' & [= <-] & Hs). exact Hs.
  - split; [discriminate | intros (s & ? & _); discriminate].
Qed.

Lemma js_not_false (x : option jsstring) : js_not x = false ↔ present x.
Proof.
  unfold present. destruct x as [[|c s]|]; simpl.
  - split; [discriminate | intros (s & [= <-] & Hs); done].
  - split; [intros _; by eexists | reflexivity].
  - split; [discriminate | intros (s & ? & _); discriminate].
Qed.

Lemma whitespace_only_blank (s : jsstring) : whitespace_only s → blank (Some s) = true.
Proof. apply blank_Some. Qed.

(** ** Regular expressions: the matcher decides the relation *)

Lemma nullable_matches (r : regex) : nullable r = true ↔ matches r [].
Proof.
  split.
  - induction r; simpl; intros Hn; try discriminate.
    + constructor.
    + apply andb_prop in Hn as [H1 H2].
      change (@nil N) with (@nil N ++ @nil N)%list. constructor; auto.
    + apply orb_prop in Hn as [H1 | H2]; [apply m_alt_l | apply m_alt_r]; auto.
    + constructor.
  - intros Hm. remember [] as s eqn:Hs.
    induction Hm; simpl; try reflexivity; try discriminate.
    + apply app_eq_nil in Hs as [-> ->].
      rewrite IHHm1, IHHm2; reflexivity.
    + rewrite IHHm by assumption. reflexivity.
    + rewrite IHHm by assumption. apply orb_true_r.
Qed.

Lemma deriv_sound (c : N) (r : regex) (s : jsstring) :
  matches (deriv c r) s → matches r (c :: s).
Proof.
  revert s. induction r as [| |p|r1 IH1 r2 IH2|r1 IH1 r2 IH2|r1 IH1]; simpl; intros s Hm.
  - inversion Hm.
  - inversion Hm.
  - destruct (p c) eqn:Hp; inversion Hm; subst. by constructor.
  - destruct (nullable r1) eqn:Hn.
    + inversion Hm as [| | | ? ? ? Hl | ? ? ? Hr | |]; subst.
      * inversion Hl; subst.
        change (c :: (s1 ++ s2))%list with ((c :: s1) ++ s2)%list. constructor; auto.
      * change (c :: s) with ([] ++ c :: s)%list. constructor; auto.
        by apply nullable_matches.
    + inversion Hm; subst.
      change (c :: (s1 ++ s2))%list with ((c :: s1) ++ s2)%list. constructor; auto.
  - inversion Hm; subst; [apply m_alt_l | apply m_alt_r]; auto.
  - inversion Hm; subst.
    change (c :: (s1 ++ s2))%list with ((c :: s1) ++ s2)%list. constructor; auto.
Qed.

Lemma deriv_complete (c : N) (r : regex) (w : jsstring) :
  matches r w → ∀ s, w = c :: s → matches (deriv c r) s.
Proof.
  induction 1 as [|p a Hp|r1 r2 s1 s2 H1 IH1 H2 IH2|r1 r2 s0 H1 IH1|r1 r2 s0 H2 IH2
                  |r0|r0 s1 s2 H1 IH1 H2 IH2]; intros s Hw; simpl.
  - discriminate.
  - injection Hw as -> <-. rewrite Hp. constructor.
  - destruct s1 as [|a s1']; simpl in Hw.
    + apply nullable_matches in H1. rewrite H1. apply m_alt_r. auto.
    + injection Hw as -> <-.
      destruct (nullable r1); [apply m_alt_l |]; constructor; auto.
  - apply m_alt_l. auto.
  - apply m_alt_r. auto.
  - discriminate.
  - destruct s1 as [|a s1']; simpl in Hw.
    + apply (IH2 _ Hw).
    + injection Hw as -> <-. constructor; auto.
Qed.

Lemma regex_test_matches (r : regex) (s : jsstring) :
  regex_test r s = true ↔ matches r s.
Proof.
  revert r. induction s as [|c s IH]; intros r; simpl.
  - apply nullable_matches.
  - rewrite IH. split; [apply deriv_sound | intros Hm; by eapply deriv_complete].
Qed.

(** ** The shape of the addresses [emailRegex] accepts *)

Lemma matches_class (p : N → bool) (s : jsstring) :
  matches (Class p) s ↔ ∃ c, s = [c] ∧ p c = true.
Proof.
  split.
  - inversion 1; subst. eauto.
  - intros (c & -> & Hp). by constructor.
Qed.

Lemma matches_cat (r1 r2 : regex) (s : jsstring) :
  matches (Cat r1 r2) s ↔ ∃ s1 s2, s = (s1 ++ s2)%list ∧ matches r1 s1 ∧ matches r2 s2.
Proof.
  split.
  - inversion 1; subst. eauto.
  - intros (s1 & s2 & -> & H1 & H2). by constructor.
Qed.

Lemma matches_star_class (p : N → bool) (s : jsstring) :
  matches (Star (Class p)) s ↔ Forall (λ c, p c = true) s.
Proof.
  split.
  - intros Hm. remember (Star (Class p)) as r eqn:Hr.
    induction Hm; try discriminate.
    + constructor.
    + injection Hr as ->. apply matches_class in Hm1 as (c & -> & Hp).
      simpl. constructor; auto.
  - induction 1 as [|c s Hc _ IH].
    + constructor.
    + change (c :: s) with ([c] ++ s)%list. constructor; [by constructor | exact IH].
Qed.

Lemma matches_plus_class (p : N → bool) (s : jsstring) :
  matches (Plus (Class p)) s ↔ s ≠ [] ∧ Forall (λ c, p c = true) s.
Proof.
  unfold Plus. rewrite matches_cat. split.
  - intros (s1 & s2 & -> & H1 & H2).
    apply matches_class in H1 as (c & -> & Hp). apply matches_star_class in H2.
    split; [discriminate | by constructor].
  - intros [Hne Hall]. destruct Hall as [|c s Hc Hall]; [done |].
    exists [c], s. split; [reflexivity |]. split.
    + by constructor.
    + by apply matches_star_class.
Qed.

Lemma matches_char (k : N) (s : jsstring) : matches (Class (N.eqb k)) s ↔ s = [k].
Proof.
  rewrite matches_class. split.
  - intros (c & -> & Hc). apply N.eqb_eq in Hc. by subst.
  - intros ->. exists k. split; [reflexivity | apply N.eqb_refl].
Qed.

Lemma emailRegex_shape (s : jsstring) :
  regex_test emailRegex s = true ↔ email_shape s.
Proof.
  rewrite regex_test_matches. unfold emailRegex, email_shape. split.
  - intros Hm.
    apply matches_cat in Hm as (loc & s1 & -> & Hloc & Hm).
    apply matches_cat in Hm as (at_ & s2 & -> & Hat & Hm).
    apply matches_cat in Hm as (dom & s3 & -> & Hdom & Hm).
    apply matches_cat in Hm as (dot & tld & -> & Hdot & Htld).
    apply matches_char in Hat as ->. apply matches_char in Hdot as ->.
    apply matches_plus_class in Hloc as [? ?].
    apply matches_plus_class in Hdom as [? ?].
    apply matches_plus_class in Htld as [? ?].
    exists loc, dom, tld. simpl. auto 10.
  - intros (loc & dom & tld & -> & ? & ? & ? & ? & ? & ?).
    apply matches_cat. exists loc, (64%N :: dom ++ 46%N :: tld)%list.
    split; [reflexivity |]. split; [by apply matches_plus_class |].
    apply matches_cat. exists [64%N], (dom ++ 46%N :: tld)%list.
    split; [reflexivity |]. split; [by apply matches_char |].
    apply matches_cat. exists dom, (46%N :: tld)%list.
    split; [reflexivity |]. split; [by apply matches_plus_class |].
    apply matches_cat. exists [46%N], tld.
    split; [reflexivity |]. split; [by apply matches_char | by apply matches_plus_class].
Qed.

(** ** Floating-point comparison *)

Lemma SFleb_not_SFltb (a b : spec_float) : SFleb a b = true → SFltb b a = false.
Proof.
  unfold SFleb, SFltb, SFcompare.
  destruct a as [s|s| |s m e], b as [s'|s'| |s' m' e'];
    try (destruct s); try (destruct s');
    try reflexivity; try (intros Hf; inversion Hf; fail).
  - rewrite (Z.compare_antisym e' e).
    destruct (e' ?= e)%Z; cbv [CompOpp];
      try reflexivity; try (intros Hf; inversion Hf; fail).
    change (PosDef.Pos.compare_cont Eq) with Pos.compare.
    rewrite (Pos.compare_antisym m' m).
    destruct (m' ?= m)%positive; cbv [CompOpp];
      try reflexivity; try (intros Hf; inversion Hf; fail).
  - rewrite (Z.compare_antisym e' e).
    destruct (e' ?= e)%Z; cbv [CompOpp];
      try reflexivity; try (intros Hf; inversion Hf; fail).
    change (PosDef.Pos.compare_cont Eq) with Pos.compare.
    rewrite (Pos.compare_antisym m' m).
    destruct (m' ?= m)%positive; cbv [CompOpp];
      try reflexivity; try (intros Hf; inversion Hf; fail).
Qed.

(** [1000 <= x] rules out [x < 1000]. *)
Lemma leb_not_ltb (x y : jsnumber) : PrimFloat.leb x y = true → PrimFloat.ltb y x = false.
Proof. rewrite leb_spec, ltb_spec. apply SFleb_not_SFltb. Qed.

(** ** Running a resolver *)

Ltac run_M :=
  cbv [mbind mret M_bind M_ret throw record_call get_db put_users put_employees
       User.findOne User.save bcrypt.hash bcrypt.compare
       Employee.find_all Employee.find Employee.cast_id Employee.findById Employee.new
       Employee.save Employee.findByIdAndUpdate Employee.findByIdAndDelete];
  simpl.

(** ** signup: the checks and the code's tests *)

Lemma regex_test_passes (username email password : option jsstring) :
  non_empty email →
  regex_test emailRegex (string_of email) = true ↔ passes username email password email_matches.
Proof.
  intros (s & -> & _). simpl. rewrite emailRegex_shape. split.
  - intros Hs. by exists s.
  - intros (s' & [= <-] & Hs). exact Hs.
Qed.

Lemma password_test_passes (username email password : option jsstring) :
  js_not password || (length (string_of password) <? 6)%nat = false
  ↔ passes username email password password_length.
Proof.
  simpl. destruct password as [s|]; simpl.
  - rewrite orb_false_iff, Nat.ltb_ge. split.
    + intros [_ Hlen]. by exists s.
    + intros (s' & [= <-] & Hlen). split; [| exact Hlen].
      destruct s; [simpl in Hlen; lia | reflexivity].
  - split; [discriminate | intros (s & ? & _); discriminate].
Qed.

Lemma signup_validated `{Externals} (username email password : option jsstring) (db : Db) :
  Forall (passes username email password) spec_signup_checks →
  signup username email password db =
    (existingUser ← User.findOne username email;
     match existingUser with
     | Some _ => throw (mkUserInputError "User already exists" (Some ["username"; "email"]))
     | None =>
         hashedPassword ← bcrypt.hash (string_of password) 12;
         User.save (User.new (string_of username) (string_of email) hashedPassword)
     end) db.
Proof.
  unfold spec_signup_checks. intros Hall.
  apply Forall_cons in Hall as [Hu Hall]. apply Forall_cons in Hall as [He Hall].
  apply Forall_cons in Hall as [Hm Hall]. apply Forall_cons in Hall as [Hp _].
  unfold signup.
  apply (regex_test_passes username email password He) in Hm.
  apply password_test_passes in Hp.
  apply blank_false in Hu, He.
  rewrite Hu, He, Hm, Hp. reflexivity.
Qed.

(** C1. signup validates in the fixed order username non-empty, email
    non-empty, email of the shape local@domain.tld, password of length at
    least 6: whenever the checks before one of them pass and that one fails,
    the call throws the error of that check, whose [invalidArgs] names
    exactly the field of the check, and nothing else has happened (the
    database and the trace of calls are as they were). With the password
    check in that place: valid username and email and a password shorter
    than 6 fail citing [password]. *)
Theorem signup_first_failing_check `{Externals}
    (username email password : option jsstring) (db : Db)
    (pre post : list signup_check) (c : signup_check) :
  spec_signup_checks = (pre ++ c :: post)%list →
  Forall (passes username email password) pre →
  ¬ passes username email password c →
  signup username email password db = (Throw (signup_error c), db)
  ∧ invalidArgs (signup_error c) = Some [signup_field c].
Proof.
  unfold spec_signup_checks. intros Hsplit Hpre Hc.
  destruct pre as [|c1 [|c2 [|c3 [|c4 pre]]]]; simpl in Hsplit.
  - injection Hsplit as <- _. split; [| reflexivity]. cbn [passes] in Hc.
    unfold signup. rewrite <- blank_false in Hc. apply not_false_is_true in Hc.
    by rewrite Hc.
  - injection Hsplit as <- <- _. split; [| reflexivity].
    apply Forall_cons in Hpre as [Hu _]. apply blank_false in Hu.
    cbn [passes] in Hc. rewrite <- blank_false in Hc. apply not_false_is_true in Hc.
    unfold signup. by rewrite Hu, Hc.
  - injection Hsplit as <- <- <- _. split; [| reflexivity].
    apply Forall_cons in Hpre as [Hu Hpre]. apply Forall_cons in Hpre as [He _].
    rewrite <- (regex_test_passes username email password He) in Hc.
    apply not_true_is_false in Hc.
    apply blank_false in Hu, He.
    unfold signup. by rewrite Hu, He, Hc.
  - injection Hsplit as <- <- <- <- _. split; [| reflexivity].
    apply Forall_cons in Hpre as [Hu Hpre]. apply Forall_cons in Hpre as [He Hpre].
    apply Forall_cons in Hpre as [Hm _].
    apply (regex_test_passes username email password He) in Hm.
    rewrite <- password_test_passes in Hc. apply not_false_is_true in Hc.
    apply blank_false in Hu, He.
    unfold signup. by rewrite Hu, He, Hm, Hc.
  - exfalso. injection Hsplit as _ _ _ _ Hnil. by destruct pre.
Qed.

Lemma signup_first_failing_check_witness :
  signup (Some (js "alice")) (Some (js "alice@example.com")) (Some (js "abc")) empty_db
  = (Throw (mkUserInputError "Password must be at least 6 characters long" (Some ["password"])),
     empty_db)
  ∧ invalidArgs (signup_error password_length) = Some ["password"].
Proof.
  apply (signup_first_failing_check (H := example_externals) _ _ _ _
           [username_non_empty; email_non_empty; email_matches] [] password_length).
  - reflexivity.
  - repeat constructor.
    + apply blank_false. vm_compute. reflexivity.
    + apply blank_false. vm_compute. reflexivity.
    + eexists. split; [reflexivity |]. apply emailRegex_shape. vm_compute. reflexivity.
  - intros (s & Hs & Hlen). injection Hs as <-. vm_compute in Hlen. lia.
Defined.

(** ** signup on a user that exists *)

Lemma find_filter_or_Some (username email : option jsstring) (us : list UserSchema.doc) :
  (∃ user, user ∈ us ∧
     (username = Some (UserSchema.username user) ∨ email = Some (UserSchema.email user))) →
  ∃ user, find (User.filter_or username email) us = Some user.
Proof.
  intros (user & Hin & Hmatch).
  destruct (find (User.filter_or username email) us) as [u|] eqn:Hfind; [by exists u |].
  exfalso. apply list_elem_of_In in Hin.
  pose proof (find_none _ _ Hfind _ Hin) as Hno.
  unfold User.filter_or, User.clause in Hno.
  destruct Hmatch as [-> | ->].
  - rewrite bool_decide_eq_true_2 in Hno by reflexivity. discriminate.
  - rewrite bool_decide_eq_true_2 in Hno by reflexivity.
    rewrite orb_true_r in Hno. discriminate.
Qed.

(** C4, as the code has it. A signup call that passes the four checks and
    whose username or email is that of a stored user fails with "User
    already exists" (invalidArgs username and email); the users and the
    employees are as before, and the one call made to the outside is the
    lookup: nothing is hashed, nothing is saved. *)
Theorem signup_existing_user `{Externals}
    (username email password : option jsstring) (db : Db) :
  Forall (passes username email password) spec_signup_checks →
  (∃ user, user ∈ users db ∧
     (username = Some (UserSchema.username user) ∨ email = Some (UserSchema.email user))) →
  signup username email password db =
    (Throw (mkUserInputError "User already exists" (Some ["username"; "email"])),
     mkDb (users db) (employees db) (User_findOne_call :: calls db)).
Proof.
  intros Hvalid Hexists.
  rewrite (signup_validated _ _ _ _ Hvalid).
  destruct (find_filter_or_Some _ _ _ Hexists) as [u Hu].
  run_M. by rewrite Hu.
Qed.

Lemma signup_existing_user_witness :
  signup (Some (js "alice")) (Some (js "other@example.com")) (Some (js "secret2")) db_alice =
    (Throw (mkUserInputError "User already exists" (Some ["username"; "email"])),
     mkDb [alice] ∅ [User_findOne_call]).
Proof.
  apply (signup_existing_user (H := example_externals)).
  - repeat constructor.
    + apply blank_false. vm_compute. reflexivity.
    + apply blank_false. vm_compute. reflexivity.
    + eexists. split; [reflexivity |]. apply emailRegex_shape. vm_compute. reflexivity.
    + eexists. split; [reflexivity |]. vm_compute. lia.
  - exists alice. split; [apply list_elem_of_here | left; reflexivity].
Defined.

(** C4, as stated, fails: alice is stored, and a signup under her username
    and email with the password "abc" is turned down for its password, not
    for the user that exists. *)
Lemma signup_existing_user_short_password :
  alice ∈ users db_alice
  ∧ signup (Some (UserSchema.username alice)) (Some (UserSchema.email alice))
      (Some (js "abc")) db_alice
    = (Throw (mkUserInputError "Password must be at least 6 characters long"
                (Some ["password"])),
       db_alice).
Proof. split; [apply list_elem_of_here | vm_compute; reflexivity]. Qed.

(** ** login *)

Lemma filter_or_true (username email : option jsstring) (u : UserSchema.doc) :
  User.filter_or username email u = true ↔
  username = Some (UserSchema.username u) ∨ email = Some (UserSchema.email u).
Proof.
  unfold User.filter_or, User.clause. rewrite orb_true_iff.
  destruct username as [a|], email as [b|]; rewrite ?bool_decide_eq_true;
    split; intros [Hl | Hr]; try discriminate; try (left; congruence); right; congruence.
Qed.

Lemma login_guard (username email password : option jsstring) :
  present username ∨ present email → present password →
  js_not username && js_not email || js_not password = false.
Proof.
  intros Hid Hp. apply js_not_false in Hp. rewrite Hp, orb_false_r.
  destruct Hid as [Hu | He].
  - apply js_not_false in Hu. by rewrite Hu.
  - apply js_not_false in He. rewrite He. apply andb_false_r.
Qed.

(** C3, as the code has it. A login call that gives a username or an email
    and a password, and for which [User.findOne] finds a user: that user is
    a stored one whose username or email is the one given; when the
    password verifies against the stored hash the resolver returns that
    user as it is stored, its password field, which holds the stored hash,
    included; when the password does not verify the call fails with
    "Invalid credentials". *)
Theorem login_returns_stored_user `{Externals}
    (username email password : option jsstring) (db : Db) (user : UserSchema.doc) :
  present username ∨ present email →
  present password →
  (User.findOne username email db).1 = Return (Some user) →
  let db' := mkDb (users db) (employees db)
               (bcrypt_compare_call :: User_findOne_call :: calls db) in
  (user ∈ users db
   ∧ (username = Some (UserSchema.username user) ∨ email = Some (UserSchema.email user)))
  ∧ (bcrypt_compare_fn (string_of password) (UserSchema.password user) = true →
     login username email password db = (Return user, db'))
  ∧ (bcrypt_compare_fn (string_of password) (UserSchema.password user) = false →
     login username email password db =
       (Throw (mkUserInputError "Invalid credentials" None), db')).
Proof.
  intros Hid Hp Hfound db'.
  assert (Hfind : find (User.filter_or username email) (users db) = Some user).
  { revert Hfound. run_M. congruence. }
  pose proof (login_guard _ _ _ Hid Hp) as Hguard.
  split; [| split].
  - apply find_some in Hfind as [Hin Hf]. split.
    + by apply list_elem_of_In.
    + by apply filter_or_true.
  - intros Hok. unfold login. rewrite Hguard.
    run_M. rewrite Hfind, Hok. reflexivity.
  - intros Hbad. unfold login. rewrite Hguard.
    run_M. rewrite Hfind, Hbad. reflexivity.
Qed.

Lemma login_returns_stored_user_witness :
  login (Some (js "alice")) None (Some (js "secret1")) db_alice =
    (Return alice, mkDb [alice] ∅ [bcrypt_compare_call; User_findOne_call])
  ∧ login (Some (js "alice")) None (Some (js "wrong")) db_alice =
    (Throw (mkUserInputError "Invalid credentials" None),
     mkDb [alice] ∅ [bcrypt_compare_call; User_findOne_call]).
Proof.
  split.
  - apply (login_returns_stored_user (H := example_externals)
             (Some (js "alice")) None (Some (js "secret1")) db_alice alice).
    + left. apply js_not_false. reflexivity.
    + apply js_not_false. reflexivity.
    + vm_compute. reflexivity.
    + vm_compute. reflexivity.
  - apply (login_returns_stored_user (H := example_externals)
             (Some (js "alice")) None (Some (js "wrong")) db_alice alice).
    + left. apply js_not_false. reflexivity.
    + apply js_not_false. reflexivity.
    + vm_compute. reflexivity.
    + vm_compute. reflexivity.
Defined.

(** C3, as stated, fails: alice is stored with the hash of her password,
    and what her login returns has a password field, which holds that
    hash. *)
Lemma login_returns_the_stored_hash :
  alice ∈ users db_alice
  ∧ ∃ r, (login (Some (js "alice")) None (Some (js "secret1")) db_alice).1 = Return r
      ∧ UserSchema.password r = UserSchema.password alice
      ∧ UserSchema.password r = example_hash (js "secret1") 12.
Proof.
  split; [apply list_elem_of_here |].
  exists alice. repeat split; vm_compute; reflexivity.
Qed.

(** ** What each resolver does to the database *)

Lemma js_not_Some_false (id : jsstring) : id ≠ [] → js_not (Some id) = false.
Proof. by destruct id. Qed.

Lemma is_ObjectId_non_empty `{Externals} (id : jsstring) : is_ObjectId id = true → id ≠ [].
Proof. intros Hv ->. rewrite is_ObjectId_empty in Hv. discriminate. Qed.

Lemma ObjectId_non_empty `{Externals} (m : gmap jsstring EmployeeSchema.doc) :
  ObjectId m ≠ [].
Proof. apply is_ObjectId_non_empty, ObjectId_is_ObjectId. Qed.

Lemma searchEmployeeByEid_run `{Externals} (db : Db) (id : jsstring) :
  is_ObjectId id = true →
  searchEmployeeByEid (Some id) db =
    (Return (employees db !! id),
     mkDb (users db) (employees db) (Employee_findById_call :: calls db)).
Proof.
  intros Hid. unfold searchEmployeeByEid.
  rewrite (js_not_Some_false _ (is_ObjectId_non_empty _ Hid)). run_M. by rewrite Hid.
Qed.

Lemma searchEmployeeByEid_cast `{Externals} (db : Db) (id : jsstring) :
  id ≠ [] → is_ObjectId id = false →
  searchEmployeeByEid (Some id) db =
    (Throw (CastError id),
     mkDb (users db) (employees db) (Employee_findById_call :: calls db)).
Proof.
  intros Hne Hid. unfold searchEmployeeByEid.
  rewrite (js_not_Some_false _ Hne). run_M. by rewrite Hid.
Qed.

Lemma updateEmployeeByEid_found `{Externals} (db : Db) (id : jsstring) (u : UpdateFields.t)
    (d : EmployeeSchema.doc) :
  is_ObjectId id = true → employees db !! id = Some d →
  updateEmployeeByEid (Some id) u db =
    (Return (Employee.set u d),
     mkDb (users db) (<[id := Employee.set u d]> (employees db))
       (Employee_findByIdAndUpdate_call :: calls db)).
Proof.
  intros Hid Hd. unfold updateEmployeeByEid.
  rewrite (js_not_Some_false _ (is_ObjectId_non_empty _ Hid)).
  run_M. rewrite Hid. simpl. by rewrite Hd.
Qed.

Lemma updateEmployeeByEid_missing `{Externals} (db : Db) (id : jsstring)
    (u : UpdateFields.t) :
  is_ObjectId id = true → employees db !! id = None →
  updateEmployeeByEid (Some id) u db =
    (Throw (mkUserInputError "Employee not found" (Some ["eid"])),
     mkDb (users db) (employees db) (Employee_findByIdAndUpdate_call :: calls db)).
Proof.
  intros Hid Hd. unfold updateEmployeeByEid.
  rewrite (js_not_Some_false _ (is_ObjectId_non_empty _ Hid)).
  run_M. rewrite Hid. simpl. by rewrite Hd.
Qed.

Lemma updateEmployeeByEid_cast `{Externals} (db : Db) (id : jsstring) (u : UpdateFields.t) :
  id ≠ [] → is_ObjectId id = false →
  updateEmployeeByEid (Some id) u db =
    (Throw (CastError id),
     mkDb (users db) (employees db) (Employee_findByIdAndUpdate_call :: calls db)).
Proof.
  intros Hne Hid. unfold updateEmployeeByEid.
  rewrite (js_not_Some_false _ Hne). run_M. by rewrite Hid.
Qed.

Lemma deleteEmployeeByEid_run `{Externals} (db : Db) (id : jsstring) :
  is_ObjectId id = true →
  deleteEmployeeByEid (Some id) db =
    (Return "Employee deleted successfully",
     mkDb (users db) (delete id (employees db))
       (Employee_findByIdAndDelete_call :: calls db)).
Proof.
  intros Hid. unfold deleteEmployeeByEid.
  rewrite (js_not_Some_false _ (is_ObjectId_non_empty _ Hid)). run_M. by rewrite Hid.
Qed.

Lemma deleteEmployeeByEid_cast `{Externals} (db : Db) (id : jsstring) :
  id ≠ [] → is_ObjectId id = false →
  deleteEmployeeByEid (Some id) db =
    (Throw (CastError id),
     mkDb (users db) (employees db) (Employee_findByIdAndDelete_call :: calls db)).
Proof.
  intros Hne Hid. unfold deleteEmployeeByEid.
  rewrite (js_not_Some_false _ Hne). run_M. by rewrite Hid.
Qed.

(** An eid is turned down by the guard, or is an identifier, or is a
    string that is there and is no identifier. *)
Lemma eid_guard `{Externals} (eid : option jsstring) :
  js_not eid = true
  ∨ (∃ id, eid = Some id ∧ is_ObjectId id = true)
  ∨ (∃ id, eid = Some id ∧ id ≠ [] ∧ is_ObjectId id = false).
Proof.
  destruct eid as [[|c s]|]; simpl; auto.
  destruct (is_ObjectId (c :: s)) eqn:Hv; [right; left | right; right]; eauto.
Qed.

(** The employees a request leaves: those there were, with at most one of
    them added under a new identifier, updated in place, or removed. *)
Lemma serve_employees `{Externals} (r : request) (db : Db) :
  employees (serve r db) = employees db
  ∨ (∃ d, EmployeeSchema._id d = ObjectId (employees db)
          ∧ employees (serve r db) = <[ObjectId (employees db) := d]> (employees db))
  ∨ (∃ id d u, employees db !! id = Some d
               ∧ employees (serve r db) = <[id := Employee.set u d]> (employees db))
  ∨ (∃ id, employees (serve r db) = delete id (employees db)).
Proof.
  destruct r as [u e p| |eid|dg dp|u e p|args|eid u|eid]; simpl.
  - left. unfold login. repeat case_match; run_M; repeat case_match; reflexivity.
  - left. reflexivity.
  - left. destruct (eid_guard eid) as [Hg | [(id & -> & Hid) | (id & -> & Hne & Hid)]].
    + unfold searchEmployeeByEid. by rewrite Hg.
    + by rewrite (searchEmployeeByEid_run _ _ Hid).
    + by rewrite (searchEmployeeByEid_cast _ _ Hne Hid).
  - left. unfold searchEmployeeByDesignationOrDepartment. case_match; reflexivity.
  - left. unfold signup. repeat case_match; run_M; repeat case_match; reflexivity.
  - unfold addNewEmployee. repeat case_match; try (left; reflexivity).
    right. left. run_M. eexists. split; [| reflexivity]. reflexivity.
  - destruct (eid_guard eid) as [Hg | [(id & -> & Hid) | (id & -> & Hne & Hid)]].
    + left. unfold updateEmployeeByEid. by rewrite Hg.
    + destruct (employees db !! id) as [d|] eqn:Hd.
      * right. right. left. exists id, d, u.
        by rewrite (updateEmployeeByEid_found _ _ _ _ Hid Hd).
      * left. by rewrite (updateEmployeeByEid_missing _ _ _ Hid Hd).
    + left. by rewrite (updateEmployeeByEid_cast _ _ _ Hne Hid).
  - destruct (eid_guard eid) as [Hg | [(id & -> & Hid) | (id & -> & Hne & Hid)]].
    + left. unfold deleteEmployeeByEid. by rewrite Hg.
    + right. right. right. exists id. by rewrite (deleteEmployeeByEid_run _ _ Hid).
    + left. by rewrite (deleteEmployeeByEid_cast _ _ Hne Hid).
Qed.

Lemma set_id (u : UpdateFields.t) (d : EmployeeSchema.doc) :
  EmployeeSchema._id (Employee.set u d) = EmployeeSchema._id d.
Proof. reflexivity. Qed.

(** In every database the server can be in, each employee is filed under
    its own identifier, which is not the empty string. *)
Lemma reachable_well_keyed `{Externals} (db : Db) : reachable db → well_keyed db.
Proof.
  induction 1 as [|db r Hreach IH].
  - intros id d Hd. simpl in Hd. by rewrite lookup_empty in Hd.
  - intros k d' Hk.
    destruct (serve_employees r db) as [Heq | [(d & Hd & Heq) | [(id & d & u & Hd & Heq) | [id Heq]]]];
      rewrite Heq in Hk.
    + by apply IH.
    + apply lookup_insert_Some in Hk as [[<- <-] | [_ Hk]]; [| by apply IH].
      split; [exact Hd | apply ObjectId_non_empty].
    + apply lookup_insert_Some in Hk as [[<- <-] | [_ Hk]]; [| by apply IH].
      rewrite set_id. by apply IH.
    + apply lookup_delete_Some in Hk as [_ Hk]. by apply IH.
Qed.

(** In every database the server can be in, the identifier of each
    employee is one Mongoose takes as an [ObjectId]. *)
Lemma reachable_ids `{Externals} (db : Db) (id : jsstring) (d : EmployeeSchema.doc) :
  reachable db → employees db !! id = Some d → is_ObjectId id = true.
Proof.
  intros Hreach. revert id d. induction Hreach as [|db r Hreach IH]; intros k d' Hk.
  - simpl in Hk. by rewrite lookup_empty in Hk.
  - destruct (serve_employees r db)
      as [Heq | [(d & Hd & Heq) | [(id & d & u & Hd & Heq) | [id Heq]]]];
      rewrite Heq in Hk.
    + by eapply IH.
    + apply lookup_insert_Some in Hk as [[<- <-] | [_ Hk]]; [| by eapply IH].
      apply ObjectId_is_ObjectId.
    + apply lookup_insert_Some in Hk as [[<- <-] | [_ Hk]]; by eapply IH.
    + apply lookup_delete_Some in Hk as [_ Hk]. by eapply IH.
Qed.

Lemma stored_lookup `{Externals} (db : Db) (d : EmployeeSchema.doc) :
  reachable db → stored db d ↔ employees db !! EmployeeSchema._id d = Some d.
Proof.
  intros Hreach. split.
  - intros [k Hk]. destruct (reachable_well_keyed db Hreach k d Hk) as [Hid _].
    by rewrite Hid.
  - intros Hd. by eexists.
Qed.

(** ** deleteEmployeeByEid *)





(** ** updateEmployeeByEid *)




Lemma set_frame (u : UpdateFields.t) (d : EmployeeSchema.doc) (f : field) :
  field_value f (Employee.set u d) = default (field_value f d) (supplied f u).
Proof.
  destruct u as [a1 a2 a3 a4 a5 a6 a7 a8 a9].
  destruct f; simpl; try reflexivity;
    match goal with |- context [default _ ?a] => by destruct a end.
Qed.

(** C7. An updateEmployeeByEid call on an employee the database holds
    returns the record as it is after the update, which is the one then
    stored under the identifier; each field the argument bag supplies has
    the value supplied, and each field absent from the bag has the value it
    had before; the other employees and the users are untouched. *)
Theorem updateEmployeeByEid_frame `{Externals} (db : Db) (d : EmployeeSchema.doc)
    (updateFields : UpdateFields.t) :
  reachable db →
  stored db d →
  let eid := EmployeeSchema._id d in
  let db' := (updateEmployeeByEid (Some eid) updateFields db).2 in
  ∃ d', (updateEmployeeByEid (Some eid) updateFields db).1 = Return d'
    ∧ employees db' !! eid = Some d'
    ∧ (∀ f, supplied f updateFields = None → field_value f d' = field_value f d)
    ∧ (∀ f v, supplied f updateFields = Some v → field_value f d' = v)
    ∧ (∀ id, id ≠ eid → employees db' !! id = employees db !! id)
    ∧ users db' = users db.
Proof.
  intros Hreach Hstored eid db'.
  apply (stored_lookup db d Hreach) in Hstored.
  pose proof (reachable_ids db _ _ Hreach Hstored) as Hid.
  subst db'. fold eid in Hstored, Hid.
  rewrite (updateEmployeeByEid_found db eid updateFields d Hid Hstored).
  exists (Employee.set updateFields d). cbn [fst snd employees users].
  split; [reflexivity |]. split; [apply lookup_insert_eq |].
  split; [| split; [| split]].
  - intros f Hf. by rewrite set_frame, Hf.
  - intros f v Hf. by rewrite set_frame, Hf.
  - intros id Hne. by apply lookup_insert_ne.
  - reflexivity.
Qed.

(** ** searchEmployeeByEid *)


Lemma reachable_db_AB : reachable db_AB.
Proof. apply reachable_serve, reachable_empty. Qed.


Lemma updateEmployeeByEid_frame_witness :
  ∃ d', (updateEmployeeByEid (Some id_AB) update_first_name db_AB).1 = Return d'
    ∧ employees (updateEmployeeByEid (Some id_AB) update_first_name db_AB).2 !! id_AB = Some d'
    ∧ field_value f_first_name d' = JString (Some (js "Ann"))
    ∧ field_value f_last_name d' = field_value f_last_name employee_AB
    ∧ field_value f_salary d' = field_value f_salary employee_AB.
Proof.
  destruct (updateEmployeeByEid_frame (H := example_externals) db_AB employee_AB
              update_first_name) as (d' & Hr & Hs & Hframe & Hset & _).
  - apply reachable_serve, reachable_empty.
  - exists id_AB. vm_compute. reflexivity.
  - exists d'. split; [exact Hr |]. split; [exact Hs |]. split; [| split].
    + apply Hset. reflexivity.
    + apply Hframe. reflexivity.
    + apply Hframe. reflexivity.
Defined.



(** ** addNewEmployee *)

(** Either one of the six checks throws, naming one field and leaving the
    database as it was, or all six pass and the employee is created. *)
Lemma addNewEmployee_cases `{Externals} (args : Args.t) (db : Db) :
  (∃ (e : UserInputError) f, addNewEmployee args db = (Throw e, db) ∧ invalidArgs e = Some [f])
  ∨ (blank (Args.first_name args) = false
     ∧ blank (Args.last_name args) = false
     ∧ blank (Args.designation args) = false
     ∧ salary_too_low (Args.salary args) = false
     ∧ js_not (Args.date_of_joining args) = false
     ∧ blank (Args.department args) = false
     ∧ addNewEmployee args db =
         (newEmployee ← Employee.new args; Employee.save newEmployee) db).
Proof.
  unfold addNewEmployee.
  destruct (blank (Args.first_name args)); [left; by eexists _, _ |].
  destruct (blank (Args.last_name args)); [left; by eexists _, _ |].
  destruct (blank (Args.designation args)); [left; by eexists _, _ |].
  destruct (salary_too_low (Args.salary args)); [left; by eexists _, _ |].
  destruct (js_not (Args.date_of_joining args)); [left; by eexists _, _ |].
  destruct (blank (Args.department args)); [left; by eexists _, _ |].
  right. repeat split; reflexivity.
Qed.

(** C9. An addNewEmployee call whose first_name, last_name and designation
    are non-empty and whose salary is there and less than 1000 fails with
    "Salary must be at least 1000", citing salary, and the database is as
    it was. A call whose required fields are all valid, the salary being at
    least 1000, returns a new employee that has every field as the call
    supplied it, and that employee is then stored, under an identifier no
    employee had. *)
Theorem addNewEmployee_salary_threshold `{Externals} (args : Args.t) (db : Db) (x : jsnumber) :
  non_empty (Args.first_name args) →
  non_empty (Args.last_name args) →
  non_empty (Args.designation args) →
  Args.salary args = Some x →
  (PrimFloat.ltb x 1000 = true →
   addNewEmployee args db = (Throw salary_at_least_1000, db)
   ∧ invalidArgs salary_at_least_1000 = Some ["salary"])
  ∧ (PrimFloat.leb 1000 x = true →
     present (Args.date_of_joining args) →
     non_empty (Args.department args) →
     ∃ d, addNewEmployee args db =
            (Return d,
             mkDb (users db) (<[EmployeeSchema._id d := d]> (employees db))
               (Employee_save_call :: calls db))
       ∧ fields_of d = args
       ∧ employees db !! EmployeeSchema._id d = None).
Proof.
  intros Hf Hl Hd Hs. apply blank_false in Hf, Hl, Hd. split.
  - intros Hlow. split; [| reflexivity].
    unfold addNewEmployee, salary_too_low. by rewrite Hf, Hl, Hd, Hs, Hlow.
  - intros Hok Hdate Hdep. apply leb_not_ltb in Hok.
    apply js_not_false in Hdate. apply blank_false in Hdep.
    assert (Hsal : salary_too_low (Args.salary args) = false).
    { unfold salary_too_low. by rewrite Hs. }
    unfold addNewEmployee. rewrite Hf, Hl, Hd, Hsal, Hdate, Hdep.
    run_M. eexists (EmployeeSchema.mk _ _ _ _ _ _ _ _ _ _ _ _).
    split; [reflexivity |]. split.
    + by destruct args.
    + apply ObjectId_fresh.
Qed.

Lemma addNewEmployee_salary_threshold_witness :
  addNewEmployee args_salary_500 empty_db = (Throw salary_at_least_1000, empty_db)
  ∧ ∃ d, addNewEmployee args_AB empty_db =
           (Return d,
            mkDb [] (<[EmployeeSchema._id d := d]> ∅) [Employee_save_call])
      ∧ fields_of d = args_AB.
Proof.
  split.
  - apply (addNewEmployee_salary_threshold (H := example_externals)
             args_salary_500 empty_db 500%float).
    + apply blank_false. vm_compute. reflexivity.
    + apply blank_false. vm_compute. reflexivity.
    + apply blank_false. vm_compute. reflexivity.
    + reflexivity.
    + vm_compute. reflexivity.
  - destruct (addNewEmployee_salary_threshold (H := example_externals)
                args_AB empty_db 1500%float) as [_ Hvalid].
    + apply blank_false. vm_compute. reflexivity.
    + apply blank_false. vm_compute. reflexivity.
    + apply blank_false. vm_compute. reflexivity.
    + reflexivity.
    + destruct Hvalid as (d & Hd & Hfields & _).
      * vm_compute. reflexivity.
      * apply js_not_false. vm_compute. reflexivity.
      * apply blank_false. vm_compute. reflexivity.
      * exists d. split; [exact Hd | exact Hfields].
Defined.

(** ** Strings made of whitespace *)

Lemma signup_cases `{Externals} (username email password : option jsstring) (db : Db) :
  blank username = true ∨ blank email = true →
  ∃ (e : UserInputError) f, signup username email password db = (Throw e, db) ∧ invalidArgs e = Some [f].
Proof.
  intros Hblank. unfold signup.
  destruct (blank username); [by eexists _, _ |].
  destruct (blank email); [by eexists _, _ |].
  by destruct Hblank.
Qed.

(** C10, as the code has it. The non-emptiness checks are made on the
    trimmed string: a signup call whose username or email is made of
    whitespace only, and an addNewEmployee call whose first_name,
    last_name, designation or department is, fails with an error that
    names one field and leaves the database as it was; the field named is
    the whitespace-only one whenever every check the resolver makes before
    the check of that field passes. *)
Theorem whitespace_only_is_rejected `{Externals} (s : jsstring) (db : Db) :
  whitespace_only s →
  (∀ username email password,
     (username = Some s →
      signup username email password db = (Throw (signup_error username_non_empty), db))
     ∧ (email = Some s → non_empty username →
        signup username email password db = (Throw (signup_error email_non_empty), db))
     ∧ (username = Some s ∨ email = Some s →
        ∃ (e : UserInputError) f, signup username email password db = (Throw e, db)
               ∧ invalidArgs e = Some [f]))
  ∧ (∀ args,
       (Args.first_name args = Some s →
        addNewEmployee args db = (Throw first_name_required, db))
       ∧ (Args.last_name args = Some s → non_empty (Args.first_name args) →
          addNewEmployee args db = (Throw last_name_required, db))
       ∧ (Args.designation args = Some s →
          non_empty (Args.first_name args) → non_empty (Args.last_name args) →
          addNewEmployee args db = (Throw designation_required, db))
       ∧ (Args.department args = Some s →
          non_empty (Args.first_name args) → non_empty (Args.last_name args) →
          non_empty (Args.designation args) →
          (∃ x, Args.salary args = Some x ∧ PrimFloat.ltb x 1000 = false) →
          present (Args.date_of_joining args) →
          addNewEmployee args db = (Throw department_required, db))
       ∧ (Args.first_name args = Some s ∨ Args.last_name args = Some s
          ∨ Args.designation args = Some s ∨ Args.department args = Some s →
          ∃ (e : UserInputError) f, addNewEmployee args db = (Throw e, db) ∧ invalidArgs e = Some [f])).
Proof.
  intros Hws. apply whitespace_only_blank in Hws. split.
  - intros username email password. split; [| split].
    + intros ->. unfold signup. by rewrite Hws.
    + intros -> Hu. apply blank_false in Hu. unfold signup. by rewrite Hu, Hws.
    + intros [-> | ->]; apply signup_cases; auto.
  - intros args. split; [| split; [| split; [| split]]].
    + intros Hs. unfold addNewEmployee. by rewrite Hs, Hws.
    + intros Hs Hf. apply blank_false in Hf.
      unfold addNewEmployee. by rewrite Hf, Hs, Hws.
    + intros Hs Hf Hl. apply blank_false in Hf, Hl.
      unfold addNewEmployee. by rewrite Hf, Hl, Hs, Hws.
    + intros Hs Hf Hl Hd (x & Hx & Hsal) Hdate.
      apply blank_false in Hf, Hl, Hd. apply js_not_false in Hdate.
      assert (Hlow : salary_too_low (Args.salary args) = false).
      { unfold salary_too_low. by rewrite Hx. }
      unfold addNewEmployee. by rewrite Hf, Hl, Hd, Hlow, Hdate, Hs, Hws.
    + intros Hany.
      destruct (addNewEmployee_cases args db)
        as [Hthrow | (Hf & Hl & Hd & _ & _ & Hp & _)]; [exact Hthrow | exfalso].
      destruct Hany as [Hs | [Hs | [Hs | Hs]]]; rewrite Hs in *; congruence.
Qed.

Lemma whitespace_only_is_rejected_witness :
  signup (Some (js "alice")) (Some (js "   ")) (Some (js "secret1")) empty_db
    = (Throw (mkUserInputError "Email is required" (Some ["email"])), empty_db)
  ∧ addNewEmployee args_blank_department empty_db
    = (Throw (mkUserInputError "Department is required" (Some ["department"])), empty_db).
Proof.
  destruct (whitespace_only_is_rejected (H := example_externals) (js "   ") empty_db)
    as [Hsignup Hadd].
  - repeat constructor.
  - split.
    + apply (Hsignup (Some (js "alice")) (Some (js "   ")) (Some (js "secret1"))).
      * reflexivity.
      * apply blank_false. vm_compute. reflexivity.
    + apply (Hadd args_blank_department).
      * reflexivity.
      * apply blank_false. vm_compute. reflexivity.
      * apply blank_false. vm_compute. reflexivity.
      * apply blank_false. vm_compute. reflexivity.
      * exists 1500%float. split; vm_compute; reflexivity.
      * apply js_not_false. vm_compute. reflexivity.
Defined.

(** C10, as stated, fails: with a department of three spaces and a salary
    of 500, addNewEmployee fails naming salary, not department. *)
Lemma addNewEmployee_blank_department_low_salary :
  Args.department args_salary_500_blank_department = Some (js "   ")
  ∧ whitespace_only (js "   ")
  ∧ addNewEmployee args_salary_500_blank_department empty_db
    = (Throw (mkUserInputError "Salary must be at least 1000" (Some ["salary"])), empty_db).
Proof. split; [reflexivity |]. split; [repeat constructor | reflexivity]. Qed.

(** ** Updates are not validated *)

(** C2 does not hold of the code. On the database that holds the employee
    addNewEmployee has accepted, with first name "A" and salary 1500, the
    call of updateEmployeeByEid with the empty string as first_name and 5
    as salary succeeds, and
    the employee stored after it has the empty string as first name and a
    salary under 1000: values that the checks of addNewEmployee reject. *)
Theorem updateEmployeeByEid_stores_empty_first_name :
  reachable db_AB
  ∧ employees db_AB !! id_AB = Some employee_AB
  ∧ blank (EmployeeSchema.first_name employee_AB) = false
  ∧ salary_too_low (EmployeeSchema.salary employee_AB) = false
  ∧ ∃ d', (updateEmployeeByEid (Some id_AB) update_empty_first_name db_AB).1 = Return d'
      ∧ employees (updateEmployeeByEid (Some id_AB) update_empty_first_name db_AB).2 !! id_AB
        = Some d'
      ∧ EmployeeSchema.first_name d' = Some []
      ∧ EmployeeSchema.salary d' = Some 5%float
      ∧ blank (EmployeeSchema.first_name d') = true
      ∧ salary_too_low (EmployeeSchema.salary d') = true.
Proof.
  split; [apply reachable_db_AB |].
  split; [vm_compute; reflexivity |].
  split; [vm_compute; reflexivity |].
  split; [vm_compute; reflexivity |].
  eexists. split; [vm_compute; reflexivity |].
  split; [vm_compute; reflexivity |].
  repeat split; vm_compute; reflexivity.
Qed.

(** * Further properties of the resolvers *)

(** ** login: the arguments and the lookup *)

Lemma login_guard_true (username email password : option jsstring) :
  js_not username && js_not email || js_not password = true
  ↔ (¬ present username ∧ ¬ present email) ∨ ¬ present password.
Proof.
  rewrite orb_true_iff, andb_true_iff.
  rewrite <- !js_not_false, !not_false_iff_true. reflexivity.
Qed.

(** X1. login fails with "Username or email and password are required"
    exactly when the call has neither a username nor an email (the empty
    string counting as none), or has no password; it then names both
    [username/email] and [password], whichever was missing, and no call is
    made to the database or to bcrypt. *)
Theorem login_arguments_required_iff `{Externals}
    (username email password : option jsstring) (db : Db) :
  ((¬ present username ∧ ¬ present email) ∨ ¬ present password
   ↔ thrown (login username email password db) = Some (UserInput login_arguments_required))
  ∧ (thrown (login username email password db) = Some (UserInput login_arguments_required) →
     login username email password db = (Throw login_arguments_required, db)).
Proof.
  rewrite <- login_guard_true. unfold login.
  destruct (js_not username && js_not email || js_not password) eqn:Hg.
  - split; [split; reflexivity | reflexivity].
  - assert (Hno : thrown
      ((user ← User.findOne username email;
        match user with
        | Some user0 =>
            isValid ← bcrypt.compare (string_of password) (UserSchema.password user0);
            if negb isValid then throw (mkUserInputError "Invalid credentials" None)
            else mret user0
        | None => throw (mkUserInputError "User not found" None)
        end) db) ≠ Some (UserInput login_arguments_required)).
    { run_M. unfold thrown.
      destruct (find (User.filter_or username email) (users db)) as [u|]; simpl;
        [| discriminate].
      destruct (bcrypt_compare_fn (string_of password) (UserSchema.password u)); simpl;
        discriminate. }
    split; [split; [discriminate | intros Ht; by destruct Hno] | intros Ht; by destruct Hno].
Qed.

Lemma find_filter_or_None (username email : option jsstring) (us : list UserSchema.doc) :
  find (User.filter_or username email) us = None
  ↔ ∀ user, user ∈ us →
      username ≠ Some (UserSchema.username user) ∧ email ≠ Some (UserSchema.email user).
Proof.
  split.
  - intros Hnone user Hin. apply list_elem_of_In in Hin.
    pose proof (find_none _ _ Hnone _ Hin) as Hf.
    apply not_true_iff_false in Hf. rewrite filter_or_true in Hf. tauto.
  - intros Hall. destruct (find (User.filter_or username email) us) as [u|] eqn:Hfind;
      [exfalso | reflexivity].
    apply find_some in Hfind as [Hin Hf]. apply list_elem_of_In in Hin.
    apply filter_or_true in Hf. destruct (Hall u Hin). tauto.
Qed.

(** X2. A login call that has a username or an email, and a password, and
    that matches no stored user (none has the username given, none the
    email given) fails with "User not found", an error without
    [invalidArgs]; the lookup is the one call made, the password is not
    compared with anything, and the users and the employees are as they
    were. *)
Theorem login_user_not_found `{Externals}
    (username email password : option jsstring) (db : Db) :
  present username ∨ present email →
  present password →
  (∀ user, user ∈ users db →
     username ≠ Some (UserSchema.username user) ∧ email ≠ Some (UserSchema.email user)) →
  login username email password db =
    (Throw (mkUserInputError "User not found" None),
     mkDb (users db) (employees db) (User_findOne_call :: calls db)).
Proof.
  intros Hid Hp Hnone. apply find_filter_or_None in Hnone.
  unfold login. rewrite (login_guard _ _ _ Hid Hp). run_M. by rewrite Hnone.
Qed.

Lemma login_user_not_found_witness :
  login (Some (js "bob")) None (Some (js "secret1")) db_alice =
    (Throw (mkUserInputError "User not found" None),
     mkDb [alice] ∅ [User_findOne_call]).
Proof.
  apply (login_user_not_found (H := example_externals) (Some (js "bob")) None
           (Some (js "secret1")) db_alice).
  - left. apply js_not_false. reflexivity.
  - apply js_not_false. reflexivity.
  - intros user Hin. apply list_elem_of_singleton in Hin as ->.
    split; [vm_compute; discriminate | discriminate].
Defined.

(** ** The queries only read *)

(** X3. The four queries (login, getAllEmployees, searchEmployeeByEid and
    searchEmployeeByDesignationOrDepartment) never write: whatever their
    arguments, and whether they succeed or fail, the users and the
    employees after the call are those before it. *)
Theorem queries_read_only `{Externals} (r : request) (db : Db) :
  is_query r = true →
  users (serve r db) = users db ∧ employees (serve r db) = employees db.
Proof.
  destruct r as [u e p| |eid|dg dp|u e p|args|eid u|eid]; simpl; try discriminate;
    intros _.
  - unfold login. repeat case_match; run_M; repeat case_match; split; reflexivity.
  - split; reflexivity.
  - destruct (eid_guard eid) as [Hg | [(id & -> & Hid) | (id & -> & Hne & Hid)]].
    + unfold searchEmployeeByEid. by rewrite Hg.
    + by rewrite (searchEmployeeByEid_run _ _ Hid).
    + by rewrite (searchEmployeeByEid_cast _ _ Hne Hid).
  - unfold searchEmployeeByDesignationOrDepartment. case_match; split; reflexivity.
Qed.

Lemma queries_read_only_witness :
  users (serve (login_request (Some (js "alice")) None (Some (js "secret1"))) db_alice)
    = [alice]
  ∧ employees (serve (login_request (Some (js "alice")) None (Some (js "secret1"))) db_alice)
    = ∅.
Proof.
  apply (queries_read_only (H := example_externals)
           (login_request (Some (js "alice")) None (Some (js "secret1"))) db_alice).
  reflexivity.
Defined.

(** ** Listing and filtering the employees *)

Lemma elem_of_stored_list (db : Db) (d : EmployeeSchema.doc) :
  d ∈ (map_to_list (employees db)).*2 ↔ stored db d.
Proof.
  unfold stored. rewrite list_elem_of_fmap. split.
  - intros ([k d'] & -> & Hin). exists k. by apply elem_of_map_to_list.
  - intros [k Hk]. exists (k, d). split; [reflexivity | by apply elem_of_map_to_list].
Qed.

(** getAllEmployees always succeeds, with one [find] of the model; the
    list it returns has every stored employee and nothing else, and its
    length is the number of employees stored. *)
Lemma getAllEmployees_all (db : Db) :
  ∃ l, getAllEmployees db =
         (Return l, mkDb (users db) (employees db) (Employee_find_call :: calls db))
    ∧ (∀ d, d ∈ l ↔ stored db d)
    ∧ length l = size (employees db)
    ∧ (employees db = ∅ → l = []).
Proof.
  exists ((map_to_list (employees db)).*2).
  split; [reflexivity |]. split; [apply elem_of_stored_list |]. split.
  - by rewrite length_fmap, length_map_to_list.
  - intros ->. by rewrite map_to_list_empty.
Qed.

(** X4. searchEmployeeByDesignationOrDepartment fails with "At least one
    of designation or department is required" when both are missing or
    empty, without a call to the database. Otherwise it succeeds, and the
    employees it returns are exactly the stored ones whose designation is
    the designation given or whose department is the department given: one
    match is enough, and an argument that is missing or empty matches
    nothing. *)
Theorem searchEmployeeByDesignationOrDepartment_matches
    (designation department : option jsstring) (db : Db) :
  (¬ present designation → ¬ present department →
   searchEmployeeByDesignationOrDepartment designation department db =
     (Throw designation_or_department_required, db))
  ∧ (present designation ∨ present department →
     ∃ l, searchEmployeeByDesignationOrDepartment designation department db =
            (Return l, mkDb (users db) (employees db) (Employee_find_call :: calls db))
       ∧ ∀ d, d ∈ l ↔
           stored db d
           ∧ ((present designation ∧ EmployeeSchema.designation d = designation)
              ∨ (present department ∧ EmployeeSchema.department d = department))).
Proof.
  split.
  - intros Hd Hp. rewrite <- js_not_false, not_false_iff_true in Hd, Hp.
    unfold searchEmployeeByDesignationOrDepartment. by rewrite Hd, Hp.
  - intros Hany.
    assert (Hg : js_not designation && js_not department = false).
    { rewrite andb_false_iff, !js_not_false. exact Hany. }
    unfold searchEmployeeByDesignationOrDepartment. rewrite Hg. run_M.
    eexists. split; [reflexivity |]. intros d.
    rewrite list_elem_of_filter, elem_of_stored_list, existsb_app, orb_true_iff.
    rewrite <- !js_not_false.
    split.
    + intros [Hm Hs]. split; [exact Hs |].
      destruct Hm as [Hm | Hm]; [left | right].
      * destruct designation as [[|c v]|]; simpl in Hm; try discriminate.
        rewrite orb_false_r in Hm. apply bool_decide_eq_true in Hm. by split.
      * destruct department as [[|c v]|]; simpl in Hm; try discriminate.
        rewrite orb_false_r in Hm. apply bool_decide_eq_true in Hm. by split.
    + intros [Hs Hm]. split; [| exact Hs].
      destruct Hm as [[Hg' Hm] | [Hg' Hm]]; [left | right]; rewrite Hg'; simpl;
        rewrite orb_false_r; apply bool_decide_eq_true.
      * destruct designation as [v|]; [exact Hm | discriminate].
      * destruct department as [v|]; [exact Hm | discriminate].
Qed.

Lemma searchEmployeeByDesignationOrDepartment_matches_witness :
  ∃ l, searchEmployeeByDesignationOrDepartment (Some (js "Eng")) None db_AB_CD =
         (Return l,
          mkDb (users db_AB_CD) (employees db_AB_CD) (Employee_find_call :: calls db_AB_CD))
    ∧ employee_AB ∈ l
    ∧ ∀ d, d ∈ l → EmployeeSchema.designation d = Some (js "Eng").
Proof.
  destruct (searchEmployeeByDesignationOrDepartment_matches (Some (js "Eng")) None db_AB_CD)
    as [_ Hsome].
  destruct Hsome as (l & Hl & Hin).
  - left. apply js_not_false. reflexivity.
  - exists l. split; [exact Hl |]. split.
    + apply Hin. split.
      * exists id_AB. vm_compute. reflexivity.
      * left. split; [apply js_not_false |]; reflexivity.
    + intros d Hd. apply Hin in Hd as [_ [[_ Hd] | [Hp _]]]; [exact Hd |].
      apply js_not_false in Hp. discriminate.
Defined.

(** ** signup: the user it stores *)

Lemma find_snoc {A : Type} (f : A → bool) (l : list A) (x : A) :
  find f l = None → find f (l ++ [x]) = if f x then Some x else None.
Proof.
  induction l as [|a l IH]; simpl; [reflexivity |].
  destruct (f a); [discriminate | exact IH].
Qed.

Lemma signup_checks_tests (username email password : option jsstring) :
  Forall (passes username email password) spec_signup_checks
  ↔ blank username = false ∧ blank email = false
    ∧ regex_test emailRegex (string_of email) = true
    ∧ js_not password || (length (string_of password) <? 6)%nat = false.
Proof.
  unfold spec_signup_checks. rewrite !Forall_cons, Forall_nil.
  rewrite <- (password_test_passes username email password).
  change (passes username email password username_non_empty) with (non_empty username).
  change (passes username email password email_non_empty) with (non_empty email).
  rewrite <- !blank_false.
  split.
  - intros (Hu & He & Hm & Hp & _).
    apply (regex_test_passes username email password) in Hm; [auto | by apply blank_false].
  - intros (Hu & He & Hm & Hp).
    apply (regex_test_passes username email password) in Hm; [auto | by apply blank_false].
Qed.

Lemma signup_run `{Externals} (username email password : option jsstring) (db : Db) :
  Forall (passes username email password) spec_signup_checks →
  find (User.filter_or username email) (users db) = None →
  signup username email password db =
    (Return (User.new (string_of username) (string_of email)
               (bcrypt_hash_fn (string_of password) 12)),
     mkDb (users db ++ [User.new (string_of username) (string_of email)
                          (bcrypt_hash_fn (string_of password) 12)])
       (employees db)
       (User_save_call :: bcrypt_hash_call :: User_findOne_call :: calls db)).
Proof.
  intros Hvalid Hnew. rewrite (signup_validated _ _ _ _ Hvalid).
  run_M. by rewrite Hnew.
Qed.

Lemma signup_thrown_unchanged `{Externals}
    (username email password : option jsstring) (db : Db) (e : exn) :
  thrown (signup username email password db) = Some e →
  users (signup username email password db).2 = users db
  ∧ employees (signup username email password db).2 = employees db.
Proof.
  unfold signup. repeat case_match; try (split; reflexivity).
  run_M. repeat case_match; try (split; reflexivity). discriminate.
Qed.

(** X5. A signup call that passes the four checks and whose username and
    email are those of no stored user succeeds: it looks the user up,
    hashes the password with bcrypt at cost 12, and saves, in that order;
    the user returned has the username and the email of the call, the hash
    as password and the current time as both timestamps, and is put after
    the users there were, which stay as they are, as do the employees. *)
Theorem signup_creates_user `{Externals}
    (username email password : option jsstring) (db : Db) :
  Forall (passes username email password) spec_signup_checks →
  (∀ user, user ∈ users db →
     username ≠ Some (UserSchema.username user) ∧ email ≠ Some (UserSchema.email user)) →
  ∃ u, signup username email password db =
         (Return u,
          mkDb (users db ++ [u]) (employees db)
            (User_save_call :: bcrypt_hash_call :: User_findOne_call :: calls db))
    ∧ username = Some (UserSchema.username u)
    ∧ email = Some (UserSchema.email u)
    ∧ UserSchema.password u = bcrypt_hash_fn (string_of password) 12
    ∧ UserSchema.created_at u = Date_now
    ∧ UserSchema.updated_at u = Date_now.
Proof.
  intros Hvalid Hnew. apply find_filter_or_None in Hnew.
  rewrite (signup_run _ _ _ _ Hvalid Hnew).
  eexists. split; [reflexivity |]. simpl.
  apply Forall_cons in Hvalid as [(su & -> & _) Hvalid].
  apply Forall_cons in Hvalid as [(se & -> & _) _].
  repeat split; reflexivity.
Qed.

Lemma signup_creates_user_witness :
  ∃ u, signup (Some (js "bob")) (Some (js "bob@example.com")) (Some (js "hunter22")) db_alice =
         (Return u,
          mkDb [alice; u] ∅ [User_save_call; bcrypt_hash_call; User_findOne_call])
    ∧ u = bob.
Proof.
  destruct (signup_creates_user (H := example_externals) (Some (js "bob"))
              (Some (js "bob@example.com")) (Some (js "hunter22")) db_alice)
    as (u & Hrun & Hu & He & Hp & Hc & Hd).
  - apply signup_checks_tests. repeat split; vm_compute; reflexivity.
  - intros user Hin. apply list_elem_of_singleton in Hin as ->.
    split; vm_compute; discriminate.
  - exists u. split; [exact Hrun |].
    destruct u as [un em pw ca ua]. simpl in *.
    injection Hu as <-. injection He as <-. subst. reflexivity.
Defined.

Lemma signup_returned_valid `{Externals}
    (username email password : option jsstring) (db : Db) :
  thrown (signup username email password db) = None →
  Forall (passes username email password) spec_signup_checks
  ∧ ∀ user, user ∈ users db →
      username ≠ Some (UserSchema.username user) ∧ email ≠ Some (UserSchema.email user).
Proof.
  rewrite signup_checks_tests, <- find_filter_or_None. unfold signup.
  destruct (blank username); [discriminate |].
  destruct (blank email); [discriminate |].
  destruct (regex_test emailRegex (string_of email)); [| discriminate].
  destruct (js_not password || (length (string_of password) <? 6)%nat); [discriminate |].
  run_M. destruct (find (User.filter_or username email) (users db)) as [u|]; simpl;
    [discriminate | auto].
Qed.

(** X6. signup succeeds exactly when the four checks pass and no stored
    user has the username or the email of the call; in every other case it
    throws, and the users stay as they were. *)
Theorem signup_succeeds_iff `{Externals}
    (username email password : option jsstring) (db : Db) :
  (thrown (signup username email password db) = None
   ↔ Forall (passes username email password) spec_signup_checks
     ∧ ∀ user, user ∈ users db →
         username ≠ Some (UserSchema.username user)
         ∧ email ≠ Some (UserSchema.email user))
  ∧ (thrown (signup username email password db) ≠ None →
     users (signup username email password db).2 = users db).
Proof.
  rewrite signup_checks_tests, <- find_filter_or_None. unfold signup.
  destruct (blank username); [split; [split; [discriminate | intros [(? & _) _]; discriminate] | reflexivity] |].
  destruct (blank email); [split; [split; [discriminate | intros [(_ & ? & _) _]; discriminate] | reflexivity] |].
  destruct (regex_test emailRegex (string_of email));
    [| split; [split; [discriminate | intros [(_ & _ & ? & _) _]; discriminate] | reflexivity]].
  destruct (js_not password || (length (string_of password) <? 6)%nat);
    [split; [split; [discriminate | intros [(_ & _ & _ & ?) _]; discriminate] | reflexivity] |].
  run_M. destruct (find (User.filter_or username email) (users db)) as [u|]; simpl.
  - split; [split; [discriminate | intros [_ ?]; discriminate] | reflexivity].
  - split; [split; [auto | reflexivity] | intros Hne; by destruct Hne].
Qed.

(** X7. Signing up, then logging in. After a successful signup, a login
    with the password of the signup and with its username, its email or
    both succeeds and returns the user the signup returned, provided bcrypt
    verifies the password against the hash it made of it. *)
Theorem signup_then_login `{Externals}
    (username email password : option jsstring) (db db1 : Db) (u : UserSchema.doc)
    (login_username login_email : option jsstring) :
  signup username email password db = (Return u, db1) →
  bcrypt_compare_fn (string_of password) (bcrypt_hash_fn (string_of password) 12) = true →
  login_username = username ∨ login_username = None →
  login_email = email ∨ login_email = None →
  login_username ≠ None ∨ login_email ≠ None →
  (login login_username login_email password db1).1 = Return u.
Proof.
  intros Hsignup Hverify Hlu Hle Hsome.
  destruct (signup_returned_valid username email password db) as [Hvalid Hnew].
  { by rewrite Hsignup. }
  pose proof Hnew as Hfresh. apply find_filter_or_None in Hfresh.
  rewrite (signup_run _ _ _ _ Hvalid Hfresh) in Hsignup. injection Hsignup as <- <-.
  assert (Hu : username = Some (string_of username)).
  { apply Forall_cons in Hvalid as [(su & -> & _) _]. reflexivity. }
  assert (He : email = Some (string_of email)).
  { apply Forall_cons in Hvalid as [_ Hvalid].
    apply Forall_cons in Hvalid as [(se & -> & _) _]. reflexivity. }
  set (u := User.new (string_of username) (string_of email)
              (bcrypt_hash_fn (string_of password) 12)).
  apply signup_checks_tests in Hvalid as (Hbu & Hbe & _ & Hbp).
  apply orb_false_iff in Hbp as [Hbp _].
  apply orb_false_iff in Hbu as [Hbu _]. apply orb_false_iff in Hbe as [Hbe _].
  assert (Hg : js_not login_username && js_not login_email || js_not password = false).
  { rewrite Hbp, orb_false_r.
    destruct Hlu as [-> | ->], Hle as [-> | ->]; rewrite ?Hbu, ?Hbe; try reflexivity.
    exfalso; destruct Hsome as [Hn | Hn]; by apply Hn. }
  assert (Hfind : find (User.filter_or login_username login_email) (users db ++ [u]) = Some u).
  { rewrite find_snoc.
    - assert (Hm : User.filter_or login_username login_email u = true); [| by rewrite Hm].
      apply filter_or_true.
      destruct Hlu as [-> | ->]; [by left |].
      destruct Hle as [-> | ->]; [by right | exfalso; destruct Hsome as [Hn | Hn]; by apply Hn].
    - apply find_filter_or_None. intros user Hin. destruct (Hnew user Hin) as [Hn1 Hn2].
      destruct Hlu as [-> | ->], Hle as [-> | ->]; split; auto; discriminate. }
  unfold login. rewrite Hg. run_M. fold u. rewrite Hfind. simpl.
  rewrite Hverify. reflexivity.
Qed.

Lemma signup_then_login_witness :
  (login (Some (js "bob")) None (Some (js "hunter22"))
     (mkDb [alice; bob] ∅ [User_save_call; bcrypt_hash_call; User_findOne_call])).1
  = Return bob.
Proof.
  apply (signup_then_login (H := example_externals)
           (Some (js "bob")) (Some (js "bob@example.com")) (Some (js "hunter22"))
           db_alice _ bob (Some (js "bob")) None).
  - vm_compute. reflexivity.
  - vm_compute. reflexivity.
  - left. reflexivity.
  - right. reflexivity.
  - left. discriminate.
Defined.

(** ** What the requests keep true of the users *)

(** The users a request leaves: those there were, or those and one more,
    put by a signup that passed its checks and found nobody. *)
Lemma serve_users `{Externals} (r : request) (db : Db) :
  users (serve r db) = users db
  ∨ ∃ username email password,
      Forall (passes username email password) spec_signup_checks
      ∧ find (User.filter_or username email) (users db) = None
      ∧ users (serve r db) =
          (users db ++ [User.new (string_of username) (string_of email)
                          (bcrypt_hash_fn (string_of password) 12)])%list.
Proof.
  destruct r as [u e p| |eid|dg dp|u e p|args|eid u|eid]; simpl.
  - left. unfold login. repeat case_match; run_M; repeat case_match; reflexivity.
  - left. reflexivity.
  - left. destruct (eid_guard eid) as [Hg | [(id & -> & Hid) | (id & -> & Hne & Hid)]].
    + unfold searchEmployeeByEid. by rewrite Hg.
    + by rewrite (searchEmployeeByEid_run _ _ Hid).
    + by rewrite (searchEmployeeByEid_cast _ _ Hne Hid).
  - left. unfold searchEmployeeByDesignationOrDepartment. case_match; reflexivity.
  - destruct (thrown (signup u e p db)) as [err|] eqn:Ht.
    + left. by destruct (signup_thrown_unchanged _ _ _ _ _ Ht).
    + right. exists u, e, p.
      destruct (signup_returned_valid _ _ _ _ Ht) as [Hvalid Hnew].
      apply find_filter_or_None in Hnew.
      split; [exact Hvalid |]. split; [exact Hnew |].
      by rewrite (signup_run _ _ _ _ Hvalid Hnew).
  - left. unfold addNewEmployee. repeat case_match; reflexivity.
  - left. destruct (eid_guard eid) as [Hg | [(id & -> & Hid) | (id & -> & Hne & Hid)]].
    + unfold updateEmployeeByEid. by rewrite Hg.
    + destruct (employees db !! id) as [d|] eqn:Hd.
      * by rewrite (updateEmployeeByEid_found _ _ _ _ Hid Hd).
      * by rewrite (updateEmployeeByEid_missing _ _ _ Hid Hd).
    + by rewrite (updateEmployeeByEid_cast _ _ _ Hne Hid).
  - left. destruct (eid_guard eid) as [Hg | [(id & -> & Hid) | (id & -> & Hne & Hid)]].
    + unfold deleteEmployeeByEid. by rewrite Hg.
    + by rewrite (deleteEmployeeByEid_run _ _ Hid).
    + by rewrite (deleteEmployeeByEid_cast _ _ Hne Hid).
Qed.

(** X8. In every database the server can be in, no two users have the same
    username and no two have the same email: signup is the one request that
    adds a user, and it adds none whose username or email is taken. *)
Theorem reachable_users_unique `{Externals} (db : Db) :
  reachable db →
  NoDup (UserSchema.username <$> users db) ∧ NoDup (UserSchema.email <$> users db).
Proof.
  induction 1 as [|db r Hreach [IHu IHe]].
  - split; constructor.
  - destruct (serve_users r db) as [-> | (u & e & p & Hvalid & Hnew & ->)];
      [by split |].
    rewrite find_filter_or_None in Hnew.
    apply Forall_cons in Hvalid as [(su & -> & _) Hvalid].
    apply Forall_cons in Hvalid as [(se & -> & _) _].
    rewrite !fmap_app. simpl. split; apply NoDup_app.
    + split; [exact IHu |]. split; [| apply NoDup_singleton].
      intros x Hx Hin. apply list_elem_of_singleton in Hin as ->.
      apply list_elem_of_fmap in Hx as (user & Heq & Huser).
      destruct (Hnew user Huser) as [Hne _]. congruence.
    + split; [exact IHe |]. split; [| apply NoDup_singleton].
      intros x Hx Hin. apply list_elem_of_singleton in Hin as ->.
      apply list_elem_of_fmap in Hx as (user & Heq & Huser).
      destruct (Hnew user Huser) as [_ Hne]. congruence.
Qed.

Lemma reachable_users_unique_witness :
  NoDup (UserSchema.username <$>
           users (serve (signup_request (Some (js "alice")) (Some (js "alice@example.com"))
                           (Some (js "secret1"))) empty_db))
  ∧ NoDup (UserSchema.email <$>
             users (serve (signup_request (Some (js "alice")) (Some (js "alice@example.com"))
                             (Some (js "secret1"))) empty_db)).
Proof.
  apply (reachable_users_unique (H := example_externals)).
  apply reachable_serve, reachable_empty.
Defined.

(** X9. In every database the server can be in, every user has a username
    that is not blank, an email of the shape local@domain.tld, and as
    password the bcrypt hash, at cost 12, of a string of at least 6 code
    units: what is stored is always the output of the hash, never the
    string the call carried. *)
Theorem reachable_users_signed_up `{Externals} (db : Db) :
  reachable db → Forall signed_up (users db).
Proof.
  induction 1 as [|db r Hreach IH].
  - constructor.
  - destruct (serve_users r db) as [-> | (u & e & p & Hvalid & _ & ->)]; [exact IH |].
    apply Forall_app. split; [exact IH |]. constructor; [| constructor].
    apply Forall_cons in Hvalid as [(su & -> & Hsu) Hvalid].
    apply Forall_cons in Hvalid as [_ Hvalid].
    apply Forall_cons in Hvalid as [(se & -> & Hse) Hvalid].
    apply Forall_cons in Hvalid as [(sp & -> & Hsp) _].
    split; [exact Hsu |]. split; [exact Hse |]. by exists sp.
Qed.

Lemma reachable_users_signed_up_witness :
  Forall signed_up
    (users (serve (signup_request (Some (js "alice")) (Some (js "alice@example.com"))
                     (Some (js "secret1"))) empty_db)).
Proof.
  apply (reachable_users_signed_up (H := example_externals)).
  apply reachable_serve, reachable_empty.
Defined.

(** X10. No request removes or changes a user: after any sequence of
    requests the users there were are still there, unchanged and in the
    same order, at the head of the list of users. *)
Theorem users_only_grow `{Externals} (rs : list request) (db : Db) :
  users db `prefix_of` users (serve_all rs db).
Proof.
  revert db. induction rs as [|r rs IH]; intros db; simpl.
  - reflexivity.
  - transitivity (users (serve r db)); [| apply IH].
    destruct (serve_users r db) as [-> | (u & e & p & _ & _ & ->)];
      [reflexivity | by apply prefix_app_r].
Qed.

(** ** addNewEmployee: the six checks *)

Lemma employee_test_passes (args : Args.t) (c : employee_check) :
  employee_test args c = false ↔ employee_passes args c.
Proof.
  destruct c; simpl; try apply blank_false; try apply js_not_false.
  unfold salary_too_low. destruct (Args.salary args) as [x|]; split.
  - intros Hx. by exists x.
  - intros (y & [= <-] & Hy). exact Hy.
  - discriminate.
  - intros (y & ? & _). discriminate.
Qed.

Lemma addNewEmployee_find `{Externals} (args : Args.t) (db : Db) :
  addNewEmployee args db =
    match find (employee_test args) addNewEmployee_checks with
    | Some c => (Throw (addNewEmployee_error c), db)
    | None => (newEmployee ← Employee.new args; Employee.save newEmployee) db
    end.
Proof.
  unfold addNewEmployee, addNewEmployee_checks. simpl.
  destruct (blank (Args.first_name args)); [reflexivity |].
  destruct (blank (Args.last_name args)); [reflexivity |].
  destruct (blank (Args.designation args)); [reflexivity |].
  destruct (salary_too_low (Args.salary args)); [reflexivity |].
  destruct (js_not (Args.date_of_joining args)); [reflexivity |].
  destruct (blank (Args.department args)); reflexivity.
Qed.

Lemma find_first {A : Type} (f : A → bool) (pre post : list A) (c : A) :
  Forall (λ x, f x = false) pre → f c = true → find f (pre ++ c :: post) = Some c.
Proof.
  induction 1 as [|a pre Ha _ IH]; simpl; intros Hc.
  - by rewrite Hc.
  - rewrite Ha. by apply IH.
Qed.

Lemma find_None_Forall {A : Type} (f : A → bool) (l : list A) :
  find f l = None ↔ Forall (λ x, f x = false) l.
Proof.
  induction l as [|a l IH]; simpl.
  - split; [constructor | reflexivity].
  - destruct (f a) eqn:Ha.
    + split; [discriminate | inversion 1; congruence].
    + rewrite IH. split; [by constructor | by inversion 1].
Qed.

(** X11. addNewEmployee makes its six checks in the order first_name,
    last_name, designation, salary, date_of_joining, department, and stops
    at the first that fails: when the checks before one of them pass and
    that one fails, the call throws the error of that check, which names
    its field alone, and the database is as it was. A date_of_joining that
    is missing or empty is turned down only once the names and the salary
    have passed, and before the department is looked at. *)
Theorem addNewEmployee_first_failing_check `{Externals} (args : Args.t) (db : Db)
    (pre post : list employee_check) (c : employee_check) :
  addNewEmployee_checks = (pre ++ c :: post)%list →
  Forall (employee_passes args) pre →
  ¬ employee_passes args c →
  addNewEmployee args db = (Throw (addNewEmployee_error c), db)
  ∧ ∃ f, invalidArgs (addNewEmployee_error c) = Some [f].
Proof.
  intros Hsplit Hpre Hc. split; [| destruct c; by eexists].
  rewrite addNewEmployee_find, Hsplit, (find_first _ pre post c); [reflexivity | |].
  - eapply Forall_impl; [exact Hpre |]. intros x Hx. by apply employee_test_passes.
  - rewrite <- employee_test_passes in Hc. by apply not_false_is_true.
Qed.

Lemma addNewEmployee_first_failing_check_witness :
  addNewEmployee
    (Args.mk (Some (js "A")) (Some (js "B")) None None (Some (js "Eng"))
       (Some 1500%float) None (Some (js "   ")) None) empty_db
  = (Throw (mkUserInputError "Date of joining is required" (Some ["date_of_joining"])),
     empty_db)
  ∧ ∃ f, invalidArgs (addNewEmployee_error date_of_joining_given) = Some [f].
Proof.
  apply (addNewEmployee_first_failing_check (H := example_externals) _ empty_db
           [first_name_given; last_name_given; designation_given; salary_given]
           [department_given] date_of_joining_given).
  - reflexivity.
  - repeat constructor; apply employee_test_passes; vm_compute; reflexivity.
  - intros (s & Hs & _). discriminate.
Defined.

(** X12. addNewEmployee succeeds exactly when its six checks pass: the
    names, the designation and the department have a character that is not
    whitespace, the salary is there and is not less than 1000, and the
    date_of_joining is there and is not the empty string. Optional fields
    (email, gender, employee_photo) play no part. *)
Theorem addNewEmployee_succeeds_iff `{Externals} (args : Args.t) (db : Db) :
  thrown (addNewEmployee args db) = None
  ↔ Forall (employee_passes args) addNewEmployee_checks.
Proof.
  rewrite addNewEmployee_find.
  destruct (find (employee_test args) addNewEmployee_checks) as [c|] eqn:Hfind.
  - split; [discriminate |]. intros Hall. exfalso.
    apply find_some in Hfind as [Hin Hc]. apply list_elem_of_In in Hin.
    rewrite Forall_forall in Hall. apply Hall in Hin.
    apply employee_test_passes in Hin. congruence.
  - split; [intros _ | reflexivity].
    apply find_None_Forall in Hfind.
    eapply Forall_impl; [exact Hfind |]. intros x Hx. by apply employee_test_passes.
Qed.

(** ** How the operations on employees compose *)

Lemma addNewEmployee_returned `{Externals} (args : Args.t) (db db1 : Db)
    (d : EmployeeSchema.doc) :
  addNewEmployee args db = (Return d, db1) →
  EmployeeSchema._id d = ObjectId (employees db)
  ∧ db1 = mkDb (users db) (<[EmployeeSchema._id d := d]> (employees db))
            (Employee_save_call :: calls db).
Proof.
  rewrite addNewEmployee_find.
  destruct (find (employee_test args) addNewEmployee_checks); [discriminate |].
  run_M. intros [= <- <-]. split; reflexivity.
Qed.



(** X14. Updating, then searching. When updateEmployeeByEid has returned a
    record, searchEmployeeByEid with the same eid returns that record: the
    update is what the next read sees. *)
Theorem updateEmployeeByEid_then_search `{Externals} (eid : option jsstring)
    (updateFields : UpdateFields.t) (db db1 : Db) (d' : EmployeeSchema.doc) :
  updateEmployeeByEid eid updateFields db = (Return d', db1) →
  (searchEmployeeByEid eid db1).1 = Return (Some d').
Proof.
  intros Hupd.
  destruct (eid_guard eid) as [Hg | [(id & -> & Hid) | (id & -> & Hne & Hid)]].
  - unfold updateEmployeeByEid in Hupd. rewrite Hg in Hupd. discriminate.
  - destruct (employees db !! id) as [d|] eqn:Hd.
    + rewrite (updateEmployeeByEid_found _ _ _ _ Hid Hd) in Hupd.
      injection Hupd as <- <-.
      rewrite (searchEmployeeByEid_run _ _ Hid). simpl. by rewrite lookup_insert_eq.
    + rewrite (updateEmployeeByEid_missing _ _ _ Hid Hd) in Hupd. discriminate.
  - rewrite (updateEmployeeByEid_cast _ _ _ Hne Hid) in Hupd. discriminate.
Qed.

Lemma updateEmployeeByEid_then_search_witness :
  (searchEmployeeByEid (Some id_AB)
     (updateEmployeeByEid (Some id_AB) update_first_name db_AB).2).1
  = Return (Some (Employee.set update_first_name employee_AB)).
Proof.
  apply (updateEmployeeByEid_then_search (H := example_externals)
           (Some id_AB) update_first_name db_AB).
  vm_compute. reflexivity.
Defined.



(** ** What a failure leaves behind *)

(** X16. A request that fails changes nothing: whichever of the eight
    operations it is and whatever the error thrown, the users and the
    employees after the call are those before it. *)
Theorem failure_changes_nothing `{Externals} (r : request) (db : Db) (e : exn) :
  error_of r db = Some e →
  users (serve r db) = users db ∧ employees (serve r db) = employees db.
Proof.
  destruct r as [u em p| |eid|dg dp|u em p|args|eid u|eid]; simpl.
  - intros _. unfold login. repeat case_match; run_M; repeat case_match; split; reflexivity.
  - intros _. split; reflexivity.
  - intros _. destruct (eid_guard eid) as [Hg | [(id & -> & Hid) | (id & -> & Hne & Hid)]].
    + unfold searchEmployeeByEid. by rewrite Hg.
    + by rewrite (searchEmployeeByEid_run _ _ Hid).
    + by rewrite (searchEmployeeByEid_cast _ _ Hne Hid).
  - intros _. unfold searchEmployeeByDesignationOrDepartment. case_match; split; reflexivity.
  - apply signup_thrown_unchanged.
  - rewrite addNewEmployee_find.
    destruct (find (employee_test args) addNewEmployee_checks); [by split |].
    run_M. discriminate.
  - destruct (eid_guard eid) as [Hg | [(id & -> & Hid) | (id & -> & Hne & Hid)]].
    + intros _. unfold updateEmployeeByEid. rewrite Hg. by split.
    + destruct (employees db !! id) as [d|] eqn:Hd.
      * rewrite (updateEmployeeByEid_found _ _ _ _ Hid Hd). discriminate.
      * rewrite (updateEmployeeByEid_missing _ _ _ Hid Hd). by split.
    + rewrite (updateEmployeeByEid_cast _ _ _ Hne Hid). by split.
  - destruct (eid_guard eid) as [Hg | [(id & -> & Hid) | (id & -> & Hne & Hid)]].
    + intros _. unfold deleteEmployeeByEid. rewrite Hg. by split.
    + rewrite (deleteEmployeeByEid_run _ _ Hid). discriminate.
    + rewrite (deleteEmployeeByEid_cast _ _ Hne Hid). by split.
Qed.

Lemma failure_changes_nothing_witness :
  users (serve (updateEmployeeByEid_request (Some other_id) update_first_name) db_AB)
    = users db_AB
  ∧ employees (serve (updateEmployeeByEid_request (Some other_id) update_first_name) db_AB)
    = employees db_AB.
Proof.
  apply (failure_changes_nothing (H := example_externals)
           (updateEmployeeByEid_request (Some other_id) update_first_name) db_AB
           (mkUserInputError "Employee not found" (Some ["eid"]))).
  vm_compute. reflexivity.
Defined.

(** ** What the pattern of signup lets through *)

Lemma not_ws_at_true (c : N) : not_ws_at c = true ↔ is_ws c = false ∧ c ≠ 64%N.
Proof.
  unfold not_ws_at. rewrite andb_true_iff, !negb_true_iff, N.eqb_neq. reflexivity.
Qed.

Lemma count_at_part (l : jsstring) :
  Forall (λ c, not_ws_at c = true) l → count_occ N.eq_dec l 64%N = 0.
Proof.
  induction 1 as [|c l Hc _ IH]; simpl; [reflexivity |].
  apply not_ws_at_true in Hc as [_ Hc]. by destruct (N.eq_dec c 64%N).
Qed.

Lemma no_ws_part (l : jsstring) :
  Forall (λ c, not_ws_at c = true) l → Forall (λ c, is_ws c = false) l.
Proof.
  intros Hl. eapply Forall_impl; [exact Hl |].
  intros c Hc. by apply not_ws_at_true in Hc as [Hc _].
Qed.

(** X17. An email the pattern of signup accepts has no whitespace at all,
    exactly one [@], which is not its first code unit, a dot somewhere
    after the [@], and at least 5 code units. *)
Theorem emailRegex_accepts_only (s : jsstring) :
  regex_test emailRegex s = true →
  Forall (λ c, is_ws c = false) s
  ∧ count_occ N.eq_dec s 64%N = 1
  ∧ (5 ≤ length s)%nat
  ∧ ∃ loc rest, s = (loc ++ 64%N :: rest)%list ∧ loc ≠ [] ∧ 46%N ∈ rest.
Proof.
  intros Hs. apply emailRegex_shape in Hs
    as (loc & dom & tld & -> & Hloc & Hdom & Htld & Hl & Hd & Ht).
  split; [| split; [| split]].
  - apply Forall_app. split; [by apply no_ws_part |].
    constructor; [reflexivity |]. apply Forall_app. split; [by apply no_ws_part |].
    constructor; [reflexivity | by apply no_ws_part].
  - rewrite count_occ_app. simpl. rewrite count_occ_app. simpl.
    rewrite !count_at_part by assumption. reflexivity.
  - rewrite length_app. simpl. rewrite length_app. simpl.
    destruct loc; [done |]. destruct dom; [done |]. destruct tld; [done |].
    simpl. lia.
  - exists loc, (dom ++ 46%N :: tld)%list. split; [reflexivity |]. split; [exact Hloc |].
    apply elem_of_app. right. apply list_elem_of_here.
Qed.

Lemma emailRegex_accepts_only_witness :
  Forall (λ c, is_ws c = false) (js "alice@example.com")
  ∧ count_occ N.eq_dec (js "alice@example.com") 64%N = 1
  ∧ (5 ≤ length (js "alice@example.com"))%nat
  ∧ ∃ loc rest, js "alice@example.com" = (loc ++ 64%N :: rest)%list
                ∧ loc ≠ [] ∧ 46%N ∈ rest.
Proof.
  apply (emailRegex_accepts_only (js "alice@example.com")).
  vm_compute. reflexivity.
Defined.

(** ** Repeating a mutation *)

Lemma set_idemp (u : UpdateFields.t) (d : EmployeeSchema.doc) :
  Employee.set u (Employee.set u d) = Employee.set u d.
Proof.
  destruct u as [a1 a2 a3 a4 a5 a6 a7 a8 a9], d. unfold Employee.set. simpl.
  destruct a1, a2, a3, a4, a5, a6, a7, a8, a9; reflexivity.
Qed.

(** X18. Updating twice. When updateEmployeeByEid has returned a record,
    the same call made again succeeds too, returns the same record, and
    leaves the employees and the users as the first call left them. *)
Theorem updateEmployeeByEid_twice `{Externals} (eid : option jsstring)
    (updateFields : UpdateFields.t) (db db1 : Db) (d' : EmployeeSchema.doc) :
  updateEmployeeByEid eid updateFields db = (Return d', db1) →
  (updateEmployeeByEid eid updateFields db1).1 = Return d'
  ∧ employees (updateEmployeeByEid eid updateFields db1).2 = employees db1
  ∧ users (updateEmployeeByEid eid updateFields db1).2 = users db1.
Proof.
  intros Hupd.
  destruct (eid_guard eid) as [Hg | [(id & -> & Hid) | (id & -> & Hne & Hid)]].
  - unfold updateEmployeeByEid in Hupd. rewrite Hg in Hupd. discriminate.
  - destruct (employees db !! id) as [d|] eqn:Hd.
    + rewrite (updateEmployeeByEid_found _ _ _ _ Hid Hd) in Hupd.
      injection Hupd as <- <-.
      rewrite (updateEmployeeByEid_found _ id updateFields (Employee.set updateFields d) Hid)
        by apply lookup_insert_eq.
      simpl. rewrite set_idemp, insert_insert_eq. auto.
    + rewrite (updateEmployeeByEid_missing _ _ _ Hid Hd) in Hupd. discriminate.
  - rewrite (updateEmployeeByEid_cast _ _ _ Hne Hid) in Hupd. discriminate.
Qed.

Lemma updateEmployeeByEid_twice_witness :
  (updateEmployeeByEid (Some id_AB) update_first_name
     (updateEmployeeByEid (Some id_AB) update_first_name db_AB).2).1
  = Return (Employee.set update_first_name employee_AB).
Proof.
  apply (updateEmployeeByEid_twice (H := example_externals)
           (Some id_AB) update_first_name db_AB).
  vm_compute. reflexivity.
Defined.

(** X19. Signing up twice. When signup has succeeded, the same call made
    again fails with "User already exists", after the lookup alone, and the
    users are as the first call left them. *)
Theorem signup_twice `{Externals} (username email password : option jsstring)
    (db db1 : Db) (u : UserSchema.doc) :
  signup username email password db = (Return u, db1) →
  signup username email password db1 =
    (Throw (mkUserInputError "User already exists" (Some ["username"; "email"])),
     mkDb (users db1) (employees db1) (User_findOne_call :: calls db1)).
Proof.
  intros Hsignup.
  destruct (signup_returned_valid username email password db) as [Hvalid Hnew].
  { by rewrite Hsignup. }
  apply find_filter_or_None in Hnew.
  rewrite (signup_run _ _ _ _ Hvalid Hnew) in Hsignup. injection Hsignup as <- <-.
  rewrite (signup_validated _ _ _ _ Hvalid). run_M.
  rewrite (find_snoc _ _ _ Hnew).
  assert (Hm : User.filter_or username email
                 (User.new (string_of username) (string_of email)
                    (bcrypt_hash_fn (string_of password) 12)) = true).
  { apply filter_or_true. left.
    apply Forall_cons in Hvalid as [(su & -> & _) _]. reflexivity. }
  by rewrite Hm.
Qed.

Lemma signup_twice_witness :
  signup (Some (js "bob")) (Some (js "bob@example.com")) (Some (js "hunter22"))
    (mkDb [alice; bob] ∅ [User_save_call; bcrypt_hash_call; User_findOne_call]) =
    (Throw (mkUserInputError "User already exists" (Some ["username"; "email"])),
     mkDb [alice; bob] ∅
       [User_findOne_call; User_save_call; bcrypt_hash_call; User_findOne_call]).
Proof.
  apply (signup_twice (H := example_externals) (Some (js "bob"))
           (Some (js "bob@example.com")) (Some (js "hunter22")) db_alice
           (mkDb [alice; bob] ∅ [User_save_call; bcrypt_hash_call; User_findOne_call]) bob).
  vm_compute. reflexivity.
Defined.

(** X20. Adding twice. addNewEmployee keeps no record of what it was given:
    when it has succeeded, the same call made again succeeds again and
    stores a second employee, with the same fields and another identifier,
    beside the first. *)
Theorem addNewEmployee_twice `{Externals} (args : Args.t) (db db1 : Db)
    (d : EmployeeSchema.doc) :
  addNewEmployee args db = (Return d, db1) →
  ∃ d2 db2, addNewEmployee args db1 = (Return d2, db2)
    ∧ EmployeeSchema._id d2 ≠ EmployeeSchema._id d
    ∧ fields_of d2 = fields_of d
    ∧ employees db2 !! EmployeeSchema._id d = Some d
    ∧ employees db2 !! EmployeeSchema._id d2 = Some d2
    ∧ size (employees db2) = S (S (size (employees db))).
Proof.
  intros Hadd. pose proof Hadd as Hrun. revert Hrun.
  rewrite !addNewEmployee_find.
  destruct (find (employee_test args) addNewEmployee_checks); [discriminate |].
  run_M. intros [= <- <-]. simpl.
  eexists (EmployeeSchema.mk _ _ _ _ _ _ _ _ _ _ _ _), _.
  split; [reflexivity |]. simpl.
  set (m := employees db).
  set (d := EmployeeSchema.mk (ObjectId m) _ _ _ _ _ _ _ _ _ _ _).
  assert (Hne : ObjectId (<[ObjectId m := d]> m) ≠ ObjectId m).
  { intros Heq. pose proof (ObjectId_fresh (<[ObjectId m := d]> m)) as Hf.
    rewrite Heq, lookup_insert_eq in Hf. discriminate. }
  split; [exact Hne |]. split; [reflexivity |]. split; [| split].
  - rewrite lookup_insert_ne by exact Hne. apply lookup_insert_eq.
  - apply lookup_insert_eq.
  - rewrite map_size_insert_None by apply ObjectId_fresh.
    rewrite map_size_insert_None by apply ObjectId_fresh. reflexivity.
Qed.

Lemma addNewEmployee_twice_witness :
  ∃ d2 db2, addNewEmployee args_AB db_AB = (Return d2, db2)
    ∧ EmployeeSchema._id d2 ≠ id_AB
    ∧ size (employees db2) = 2.
Proof.
  destruct (addNewEmployee_twice (H := example_externals) args_AB empty_db db_AB employee_AB)
    as (d2 & db2 & Hrun & Hid & _ & _ & _ & Hsize).
  - vm_compute. reflexivity.
  - exists d2, db2. split; [exact Hrun |]. split; [exact Hid | exact Hsize].
Defined.

(** ** Listing after a mutation *)

(** X21. After addNewEmployee has returned an employee, getAllEmployees
    lists it, along with every employee that was stored before. *)
Theorem addNewEmployee_then_getAllEmployees `{Externals} (args : Args.t) (db db1 : Db)
    (d : EmployeeSchema.doc) :
  addNewEmployee args db = (Return d, db1) →
  ∃ l, (getAllEmployees db1).1 = Return l
    ∧ d ∈ l
    ∧ (∀ d0, stored db d0 → d0 ∈ l)
    ∧ length l = S (size (employees db)).
Proof.
  intros Hadd. destruct (addNewEmployee_returned _ _ _ _ Hadd) as [Hid ->].
  set (db1 := mkDb (users db) (<[EmployeeSchema._id d := d]> (employees db))
                (Employee_save_call :: calls db)).
  assert (Hemp : employees db1 = <[EmployeeSchema._id d := d]> (employees db))
    by reflexivity.
  assert (Hfresh : employees db !! EmployeeSchema._id d = None).
  { rewrite Hid. apply ObjectId_fresh. }
  exists ((map_to_list (employees db1)).*2).
  split; [reflexivity |]. split; [| split].
  - apply elem_of_stored_list. exists (EmployeeSchema._id d).
    rewrite Hemp. apply lookup_insert_eq.
  - intros d0 [k Hk]. apply elem_of_stored_list. exists k.
    rewrite Hemp, lookup_insert_ne; [exact Hk |]. congruence.
  - rewrite length_fmap, length_map_to_list, Hemp. by apply map_size_insert_None.
Qed.

Lemma addNewEmployee_then_getAllEmployees_witness :
  ∃ l, (getAllEmployees db_AB).1 = Return l ∧ employee_AB ∈ l ∧ length l = 1.
Proof.
  destruct (addNewEmployee_then_getAllEmployees (H := example_externals)
              args_AB empty_db db_AB employee_AB) as (l & Hl & Hin & _ & Hlen).
  - vm_compute. reflexivity.
  - exists l. split; [exact Hl |]. split; [exact Hin | exact Hlen].
Defined.


